(** * gaia2: the pending-work registry, the clear barrier and the
      convergence window

    A shallow embedding of [src/pendingwork.py] (class [PendingWork]),
    of the handlers and the command line of [main.py], of the
    convergence test and aggregation round of [src/ml_thread.py]
    (class [Solver]) and of the simulator of [Cluster.py].

    The development is about sequences of calls: a call of a method of
    [PendingWork] is one function from the state before the call to an
    outcome and the state after it.  [dequeue], [dequeue_random] and
    [dequeue_every_queue] hold the registry lock for their whole body;
    [enqueue] tests and clears [frozen] before it takes the lock, and
    [clear_all] sets [frozen] and drains the sender outside it, so the
    interleavings of these two with other calls are not covered.  A Python
    [dict] is an association list in insertion order, because two loops of
    the registry depend on the iteration order.  Python integers are [Z],
    Python floats are the binary64 numbers of [PrimFloat]. *)

From Stdlib Require Import ZArith List String Ascii Bool Lia PrimFloat.
From Stdlib Require Import SpecFloat FloatOps FloatAxioms.
Import ListNotations.

Local Open Scope string_scope.
Local Open Scope list_scope.
Local Open Scope Z_scope.

(** ** Exceptions and outcomes *)

(** The exception classes of [src/util.py] that the modelled code raises,
    and the built-in ones it can run into. *)
Inductive exn : Type :=
| DevicePushbackError
| EmptyQueueError
| ExtraFatal
| ValueError
| IndexError
| KeyError
| AttributeError.

(** A call either returns a value or raises. *)
Inductive result (A : Type) : Type :=
| Return (a : A)
| Raise (e : exn).

Arguments Return {A} a.
Arguments Raise {A} e.

(** ** UpdateQueue *)

Module UpdateQueue.

(** Modelled from the spec: [src/updatequeue.py] is not among the
    sources.  Section 4.1 gives its contract: [enqueue] appends,
    [dequeue] removes and returns the oldest record and fails with the
    empty-queue error when there is none, [clear] removes every record,
    and the length is read in constant time ([len(queue)] and
    [queue.len] in the registry).  The head of the list is the oldest
    record. *)
Definition t (A : Type) : Type := list A.

Definition new {A : Type} : t A := [].

Definition enqueue {A : Type} (record : A) (q : t A) : t A := q ++ [record].

Definition dequeue {A : Type} (q : t A) : result A * t A :=
  match q with
  | [] => (Raise EmptyQueueError, q)
  | oldest :: q' => (Return oldest, q')
  end.

Definition clear {A : Type} (q : t A) : t A := [].

Definition len {A : Type} (q : t A) : Z := Z.of_nat (List.length q).

End UpdateQueue.

(** ** Python dictionaries with string keys *)

Module Dict.

(** Entries in insertion order; a key occurs at most once in a
    dictionary built with [set] from the empty one. *)
Definition t (V : Type) : Type := list (string * V).

Definition empty {V : Type} : t V := [].

(** [d[key]], [None] standing for the [KeyError]. *)
Fixpoint get {V : Type} (d : t V) (key : string) : option V :=
  match d with
  | [] => None
  | (k0, v0) :: rest => if String.eqb k0 key then Some v0 else get rest key
  end.

(** [d[key] = v]: an existing key keeps its place, a new key goes last. *)
Fixpoint set {V : Type} (d : t V) (key : string) (v : V) : t V :=
  match d with
  | [] => [(key, v)]
  | (k0, v0) :: rest =>
      if String.eqb k0 key then (k0, v) :: rest
      else (k0, v0) :: set rest key v
  end.

(** The keys, in the order [for key in d] yields them. *)
Definition keys {V : Type} (d : t V) : list string := map fst d.

End Dict.

(** The length of a Python string. *)
Definition str_len (s : string) : Z := Z.of_nat (String.length s).

(** ** PendingWork *)

Module PendingWork.

(** Modelled from the spec: [src/sender.py] is not among the sources.
    The registry only calls [dequeue_every_queue] on the sender, which
    section 4.4 describes as discarding every outbound record that has
    not been delivered yet.  The sender is kept as the number of
    outbound records waiting. *)
Record Sender : Type := mkSender { outbound : nat }.

Definition sender_dequeue_every_queue (sd : Sender) : Sender :=
  mkSender 0.

(** What the registry touches of the solver it is connected to: the
    number of [notify] calls on its condition, and its sender. *)
Record Node : Type := mkNode {
  condition_notified : nat;
  sender_queues : Sender }.

Section Registry.

(** The payload of a queue, a [ModelUpdate]; the registry never looks
    inside one. *)
Variable ModelUpdate : Type.

(** The attributes of a [PendingWork] object.  The lock is left out:
    calls follow one another here. *)
Record t : Type := mk {
  queues : Dict.t (UpdateQueue.t ModelUpdate);
  my_host : string;
  other_hosts : list string;
  num_devices : Z;
  total_no_of_updates : Z;
  min_queue_len : option Z;
  k : Z;
  leader : string;
  frozen : bool;
  node : Node }.

Definition set_queues (qs : Dict.t (UpdateQueue.t ModelUpdate)) (s : t) : t :=
  mk qs (my_host s) (other_hosts s) (num_devices s) (total_no_of_updates s)
     (min_queue_len s) (k s) (leader s) (frozen s) (node s).

Definition set_total_no_of_updates (n : Z) (s : t) : t :=
  mk (queues s) (my_host s) (other_hosts s) (num_devices s) n
     (min_queue_len s) (k s) (leader s) (frozen s) (node s).

Definition set_min_queue_len (lo : option Z) (s : t) : t :=
  mk (queues s) (my_host s) (other_hosts s) (num_devices s)
     (total_no_of_updates s) lo (k s) (leader s) (frozen s) (node s).

Definition set_frozen (b : bool) (s : t) : t :=
  mk (queues s) (my_host s) (other_hosts s) (num_devices s)
     (total_no_of_updates s) (min_queue_len s) (k s) (leader s) b (node s).

Definition set_node (nd : Node) (s : t) : t :=
  mk (queues s) (my_host s) (other_hosts s) (num_devices s)
     (total_no_of_updates s) (min_queue_len s) (k s) (leader s) (frozen s) nd.

(** [__init__], followed by [setup_connection_to_node(nd)].  The
    constructor does not create the [node] attribute, which every
    caller assigns before the first update arrives; the record holds
    the node from the start. *)
Definition init (max_qlen_ratio : Z) (nd : Node) : t :=
  mk Dict.empty "" [] 0 0 None max_qlen_ratio "" false nd.

Definition setup_connection_to_node (nd : Node) (s : t) : t := set_node nd s.

(** [setup]: one empty queue for this host and for each of the others. *)
Definition setup (my_host' : string) (other_hosts' : list string)
           (leader' : string) (s : t) : t :=
  let qs := Dict.set (queues s) my_host' UpdateQueue.new in
  let qs := fold_left (fun d host => Dict.set d host UpdateQueue.new)
                      other_hosts' qs in
  mk qs my_host' other_hosts' (1 + Z.of_nat (List.length other_hosts'))
     (total_no_of_updates s) (min_queue_len s) (k s) leader' (frozen s)
     (node s).

Definition is_leader (s : t) : bool := String.eqb (my_host s) (leader s).

Definition freeze_node (s : t) : t := set_frozen true s.

(** One turn of the loop of [_update_min_and_max].  The loop variable
    ranges over the dictionary itself, that is over its keys, so
    [len(queue)] is the length of a host name. *)
Definition min_step (lo : option Z) (queue : string) : option Z :=
  let lo :=
    match lo with
    | None => Some (str_len queue)
    | Some _ => lo
    end in
  match lo with
  | Some v =>
      if (str_len queue <? v) && negb (v =? 1) then Some (str_len queue)
      else lo
  | None => lo
  end.

Definition _update_min_and_max (s : t) : t :=
  set_min_queue_len (fold_left min_step (Dict.keys (queues s)) None) s.

(** The test of lines 75-76: the queue is longer than [k] times the
    cached minimum. *)
Definition pushes_back (s : t) (queue : UpdateQueue.t ModelUpdate) : bool :=
  match min_queue_len s with
  | Some m => UpdateQueue.len queue >? k s * m
  | None => false
  end.

(** [self.node.condition.notify()] *)
Definition notify (s : t) : t :=
  set_node (mkNode (S (condition_notified (node s)))
                   (sender_queues (node s))) s.

(** Lines 64-88 of [enqueue], the part under the lock. *)
Definition enqueue_locked (update : ModelUpdate) (host : string) (s : t)
  : result unit * t :=
  match Dict.get (queues s) host with
  | None =>
      let s := set_queues
                 (Dict.set (queues s) host
                           (UpdateQueue.enqueue update UpdateQueue.new)) s in
      let s := set_total_no_of_updates (total_no_of_updates s + 1) s in
      (Return tt, _update_min_and_max s)
  | Some queue =>
      if pushes_back s queue then (Raise DevicePushbackError, s)
      else
        let s := set_queues
                   (Dict.set (queues s) host
                             (UpdateQueue.enqueue update queue)) s in
        let s := set_total_no_of_updates (total_no_of_updates s + 1) s in
        let s := notify s in
        (Return tt, _update_min_and_max s)
  end.

Definition enqueue (update : ModelUpdate) (host : string) (s : t)
  : result unit * t :=
  if frozen s then
    if String.eqb host (leader s)
    then enqueue_locked update host (set_frozen false s)
    else (Return tt, s)
  else enqueue_locked update host s.

Definition dequeue (host : string) (s : t) : result ModelUpdate * t :=
  if total_no_of_updates s =? 0 then (Raise EmptyQueueError, s)
  else
    let '(s, queue) :=
      match Dict.get (queues s) host with
      | None =>
          (_update_min_and_max
             (set_queues (Dict.set (queues s) host UpdateQueue.new) s),
           UpdateQueue.new)
      | Some queue => (s, queue)
      end in
    if UpdateQueue.len queue >? 0 then
      match UpdateQueue.dequeue queue with
      | (Return ret, queue') =>
          let s := set_queues (Dict.set (queues s) host queue') s in
          let s := set_total_no_of_updates (total_no_of_updates s - 1) s in
          (Return ret, _update_min_and_max s)
      | (Raise e, _) => (Raise e, s)
      end
    else (Raise EmptyQueueError, s).

(** The loop of [dequeue_every_queue]: the counter loses the length of
    each queue, and the queue is emptied. *)
Fixpoint dequeue_every_queue_loop (qs : Dict.t (UpdateQueue.t ModelUpdate))
         (total : Z) : Dict.t (UpdateQueue.t ModelUpdate) * Z :=
  match qs with
  | [] => ([], total)
  | (key, queue) :: rest =>
      let total := total - UpdateQueue.len queue in
      let '(rest', total) := dequeue_every_queue_loop rest total in
      ((key, UpdateQueue.clear queue) :: rest', total)
  end.

Definition dequeue_every_queue (s : t) : t :=
  let '(qs, total) :=
    dequeue_every_queue_loop (queues s) (total_no_of_updates s) in
  set_total_no_of_updates total (set_queues qs s).

Definition clear_all (s : t) : t :=
  let s := freeze_node s in
  let s := set_node (mkNode (condition_notified (node s))
                            (sender_dequeue_every_queue
                               (sender_queues (node s)))) s in
  dequeue_every_queue s.

(** The loop of [dequeue_random] over the queues, for the number [r]
    drawn.  [None]: the loop ended without a [break].  Otherwise the
    key of the queue it stopped at, what [queue.dequeue()] gave, and
    the dictionary after it. *)
Fixpoint dequeue_random_loop (qs : Dict.t (UpdateQueue.t ModelUpdate))
         (r : Z)
  : option (string * result ModelUpdate * Dict.t (UpdateQueue.t ModelUpdate)) :=
  match qs with
  | [] => None
  | (key, queue) :: rest =>
      if UpdateQueue.len queue >? r then
        let '(ret, queue') := UpdateQueue.dequeue queue in
        Some (key, ret, (key, queue') :: rest)
      else
        match dequeue_random_loop rest (r - UpdateQueue.len queue) with
        | None => None
        | Some (key', ret, rest') => Some (key', ret, (key, queue) :: rest')
        end
  end.

(** The bounds handed to [random.randint] on line 147, both included. *)
Definition randint_bounds (s : t) : Z * Z :=
  (0, Z.max (total_no_of_updates s - 1) 0).

Definition valid_draw (s : t) (r : Z) : Prop :=
  fst (randint_bounds s) <= r <= snd (randint_bounds s).

(** [dequeue_random], with [r] the number [random.randint] returned. *)
Definition dequeue_random (r : Z) (s : t) : result ModelUpdate * t :=
  if total_no_of_updates s =? 0 then (Raise EmptyQueueError, s)
  else
    match dequeue_random_loop (queues s) r with
    | None => (Raise ExtraFatal, s)
    | Some (_, Raise e, _) => (Raise e, s)
    | Some (_, Return ret, qs) =>
        let s := set_queues qs s in
        let s := set_total_no_of_updates (total_no_of_updates s - 1) s in
        (Return ret, _update_min_and_max s)
    end.

Definition get_total_no_of_updates (s : t) : Z := total_no_of_updates s.

(** The sum of the lengths of the queues of a dictionary. *)
Fixpoint sum_len (qs : Dict.t (UpdateQueue.t ModelUpdate)) : Z :=
  match qs with
  | [] => 0
  | (_, queue) :: rest => UpdateQueue.len queue + sum_len rest
  end.

(** The registry invariant of section 4.2. *)
Definition counter_ok (s : t) : Prop :=
  total_no_of_updates s = sum_len (queues s).

(** The least queue length of a dictionary, [None] when it is empty. *)
Fixpoint least_len (qs : Dict.t (UpdateQueue.t ModelUpdate)) : option Z :=
  match qs with
  | [] => None
  | (_, queue) :: rest =>
      match least_len rest with
      | None => Some (UpdateQueue.len queue)
      | Some m => Some (Z.min (UpdateQueue.len queue) m)
      end
  end.

(** The queue of a host, empty when the host has none. *)
Definition queue_of (s : t) (host : string) : UpdateQueue.t ModelUpdate :=
  match Dict.get (queues s) host with
  | Some queue => queue
  | None => UpdateQueue.new
  end.

(** The key of the queue the loop of [dequeue_random] stops at for the
    number [r]. *)
Definition drawn_from (qs : Dict.t (UpdateQueue.t ModelUpdate)) (r : Z)
  : option string :=
  match dequeue_random_loop qs r with
  | Some (key, _, _) => Some key
  | None => None
  end.

(** The numbers among [0 .. total - 1], the values [random.randint]
    returns with equal probability, for which the record comes from
    the queue of [host]. *)
Definition draws_from (qs : Dict.t (UpdateQueue.t ModelUpdate))
           (total : Z) (host : string) : list nat :=
  filter (fun n => match drawn_from qs (Z.of_nat n) with
                   | Some key => String.eqb key host
                   | None => false
                   end)
         (seq 0 (Z.to_nat total)).

(** The numbers [random.randint] of line 147 can return, each of them
    with the same probability: those from the lower to the upper
    bound. *)
Definition randint_values (s : t) : list Z :=
  let '(lo, hi) := randint_bounds s in
  map (fun n => lo + Z.of_nat n) (seq 0 (Z.to_nat (hi - lo + 1))).

(** Whether [dequeue_random], with [r] the number drawn, takes its
    record from the queue of [host]: the call returns and leaves that
    queue one record shorter. *)
Definition takes_from (r : Z) (s : t) (host : string) : bool :=
  match dequeue_random r s with
  | (Return _, s') =>
      UpdateQueue.len (queue_of s' host)
      =? UpdateQueue.len (queue_of s host) - 1
  | (Raise _, _) => false
  end.

(** The numbers [random.randint] can return for which [dequeue_random]
    takes its record from the queue of [host]. *)
Definition random_draws_from (s : t) (host : string) : list Z :=
  filter (fun r => takes_from r s host) (randint_values s).

(** An enqueue that follows the admission rule: the record joins the
    queue of its host unless the queue is pushed back. *)
Definition admitted_normally (u : ModelUpdate) (host : string) (s : t)
  : Prop :=
  match Dict.get (queues s) host with
  | None =>
      fst (enqueue u host s) = Return tt
      /\ queue_of (snd (enqueue u host s)) host = [u]
  | Some q =>
      if pushes_back s q
      then enqueue u host s = (Raise DevicePushbackError, s)
      else fst (enqueue u host s) = Return tt
           /\ queue_of (snd (enqueue u host s)) host = q ++ [u]
  end.

(** What holds of a registry created with ratio [ratio] and leader
    [ldr] between two calls: the counter is right, the queues are empty
    while the barrier is up, the cached minimum is not negative, and
    the configuration is the one given. *)
Definition barrier_ok (ratio : Z) (ldr : string) (s : t) : Prop :=
  counter_ok s
  /\ (frozen s = true -> sum_len (queues s) = 0)
  /\ (forall m, min_queue_len s = Some m -> 0 <= m)
  /\ k s = ratio
  /\ leader s = ldr.

(** The least length of a host name among [keys], [None] when there is
    none. *)
Fixpoint least_key_len (keys : list string) : option Z :=
  match keys with
  | [] => None
  | key :: rest =>
      match least_key_len rest with
      | None => Some (str_len key)
      | Some m => Some (Z.min (str_len key) m)
      end
  end.

(** The calls of a client of the registry. *)
Inductive call : Type :=
| Enqueue (update : ModelUpdate) (host : string)
| Dequeue (host : string)
| DequeueRandom (r : Z)
| DequeueEveryQueue
| ClearAll.

(** The state a call leaves, whether it returned or raised. *)
Definition after (c : call) (s : t) : t :=
  match c with
  | Enqueue update host => snd (enqueue update host s)
  | Dequeue host => snd (dequeue host s)
  | DequeueRandom r => snd (dequeue_random r s)
  | DequeueEveryQueue => dequeue_every_queue s
  | ClearAll => clear_all s
  end.

(** The state a sequence of calls leaves. *)
Definition after_all (cs : list call) (s : t) : t :=
  fold_left (fun s c => after c s) cs s.

(** A call the code can make: the number of a random dequeue is one
    [random.randint] can return in the state of the call. *)
Definition possible (c : call) (s : t) : Prop :=
  match c with
  | DequeueRandom r => valid_draw s r
  | _ => True
  end.

(** The states a registry goes through after it was created with ratio
    [ratio], connected to [nd] and set up. *)
Inductive reachable (ratio : Z) (nd : Node) (me : string)
          (others : list string) (ldr : string) : t -> Prop :=
| reach_setup :
    reachable ratio nd me others ldr (setup me others ldr (init ratio nd))
| reach_call : forall s c,
    reachable ratio nd me others ldr s ->
    possible c s ->
    reachable ratio nd me others ldr (after c s).

End Registry.

Arguments mk {ModelUpdate}.
Arguments queues {ModelUpdate}.
Arguments my_host {ModelUpdate}.
Arguments other_hosts {ModelUpdate}.
Arguments num_devices {ModelUpdate}.
Arguments total_no_of_updates {ModelUpdate}.
Arguments min_queue_len {ModelUpdate}.
Arguments k {ModelUpdate}.
Arguments leader {ModelUpdate}.
Arguments frozen {ModelUpdate}.
Arguments node {ModelUpdate}.
Arguments set_queues {ModelUpdate}.
Arguments set_total_no_of_updates {ModelUpdate}.
Arguments set_min_queue_len {ModelUpdate}.
Arguments set_frozen {ModelUpdate}.
Arguments set_node {ModelUpdate}.
Arguments setup_connection_to_node {ModelUpdate}.
Arguments setup {ModelUpdate}.
Arguments is_leader {ModelUpdate}.
Arguments freeze_node {ModelUpdate}.
Arguments _update_min_and_max {ModelUpdate}.
Arguments pushes_back {ModelUpdate}.
Arguments notify {ModelUpdate}.
Arguments enqueue_locked {ModelUpdate}.
Arguments enqueue {ModelUpdate}.
Arguments dequeue {ModelUpdate}.
Arguments dequeue_every_queue_loop {ModelUpdate}.
Arguments dequeue_every_queue {ModelUpdate}.
Arguments clear_all {ModelUpdate}.
Arguments dequeue_random_loop {ModelUpdate}.
Arguments randint_bounds {ModelUpdate}.
Arguments valid_draw {ModelUpdate}.
Arguments dequeue_random {ModelUpdate}.
Arguments get_total_no_of_updates {ModelUpdate}.
Arguments sum_len {ModelUpdate}.
Arguments counter_ok {ModelUpdate}.
Arguments least_len {ModelUpdate}.
Arguments queue_of {ModelUpdate}.
Arguments barrier_ok {ModelUpdate}.
Arguments admitted_normally {ModelUpdate}.
Arguments drawn_from {ModelUpdate}.
Arguments draws_from {ModelUpdate}.
Arguments randint_values {ModelUpdate}.
Arguments takes_from {ModelUpdate}.
Arguments random_draws_from {ModelUpdate}.
Arguments Enqueue {ModelUpdate}.
Arguments Dequeue {ModelUpdate}.
Arguments DequeueRandom {ModelUpdate}.
Arguments DequeueEveryQueue {ModelUpdate}.
Arguments ClearAll {ModelUpdate}.
Arguments after {ModelUpdate}.
Arguments after_all {ModelUpdate}.
Arguments possible {ModelUpdate}.
Arguments reachable {ModelUpdate}.

End PendingWork.

(** ** main.py: the clear barrier at the transport boundary *)

Module Main.

(** The JSON body of a [/clear_all_queues] request. *)
Record ClearRequest : Type := mkClearRequest {
  sender : string;
  epoch : Z }.

Definition non_leader_response : string :=
  "Non-leader tried to clear all queues".

Definition cleared_response : string := "Clear_all_queues is running".

(** [clear_all_queues], the global [pending_work_queues] passed in and
    out; the first component is the body of the response. *)
Definition clear_all_queues {ModelUpdate : Type} (content : ClearRequest)
           (pending_work_queues : PendingWork.t ModelUpdate)
  : string * PendingWork.t ModelUpdate :=
  if negb (String.eqb (sender content) (PendingWork.leader pending_work_queues))
  then (non_leader_response, pending_work_queues)
  else (cleared_response, PendingWork.clear_all pending_work_queues).

(** The JSON body of a [/send_update] request: the sender and the
    serialized update. *)
Record UpdateRequest : Type := mkUpdateRequest {
  update_sender : string;
  update_body : string }.

Definition update_response : string := "Send update is running".

(** [receive_update].  [decode] stands for the [ModelUpdate] built
    from [json.loads(update)]; the class is not among the sources.  An exception of [enqueue] is not caught by the handler. *)
Definition receive_update {ModelUpdate : Type}
           (decode : string -> result ModelUpdate) (content : UpdateRequest)
           (pending_work_queues : PendingWork.t ModelUpdate)
  : result string * PendingWork.t ModelUpdate :=
  match decode (update_body content) with
  | Raise e => (Raise e, pending_work_queues)
  | Return update =>
      match PendingWork.enqueue update (update_sender content)
                                pending_work_queues with
      | (Return _, pw) => (Return update_response, pw)
      | (Raise e, pw) => (Raise e, pw)
      end
  end.

(** How the start-up code of lines 79-96 ends: with the configuration,
    with the usage message and [exit(1)], or with an exception. *)
Inductive startup (A : Type) : Type :=
| Started (a : A)
| Usage
| Crashed (e : exn).

Arguments Started {A} a.
Arguments Usage {A}.
Arguments Crashed {A} e.

(** What the start-up code reads off the command line. *)
Record Config : Type := mkConfig {
  cfg_my_host : string;
  cfg_leader : string;
  cfg_other_hosts : list string;
  cfg_other_leaders : list string;
  cfg_port : string }.

(** [l.index(x)]: the position of the first [x], [None] for the
    [ValueError]. *)
Fixpoint index_of (x : string) (l : list string) : option nat :=
  match l with
  | [] => None
  | y :: rest =>
      if String.eqb y x then Some 0%nat
      else match index_of x rest with
           | Some i => Some (S i)
           | None => None
           end
  end.

(** The items [l[i]] for [i] in [range(lo, hi)], [hi] within the list. *)
Definition items_in_range (l : list string) (lo hi : nat) : list string :=
  firstn (hi - lo) (skipn lo l).

(** [s.split(sep)] for a separator of one character. *)
Fixpoint split_on (sep : ascii) (s : string) : list string :=
  match s with
  | EmptyString => [EmptyString]
  | String c rest =>
      if Ascii.eqb c sep then EmptyString :: split_on sep rest
      else match split_on sep rest with
           | piece :: pieces => String c piece :: pieces
           | [] => [String c EmptyString]
           end
  end.

(** A string without a colon. *)
Definition no_colon (s : string) : Prop :=
  ~ In ":"%char (list_ascii_of_string s).

(** Lines 79-96 of [main.py] on [sys.argv]. *)
Definition parse_args (argv : list string) : startup Config :=
  if (List.length argv <? 4)%nat then Usage
  else
    match nth_error argv 1 with
    | None => Crashed IndexError
    | Some flag1 =>
        if negb (String.eqb flag1 "-me") then Usage
        else
          match nth_error argv 3 with
          | None => Crashed IndexError
          | Some flag3 =>
              if negb (String.eqb flag3 "-leader") then Usage
              else
                match nth_error argv 5 with
                | None => Crashed IndexError
                | Some flag5 =>
                    if negb (String.eqb flag5 "-them") then Usage
                    else
                      match nth_error argv 2, nth_error argv 4 with
                      | Some my_host, Some leader =>
                          let '(leaders_head, other_leaders) :=
                            match index_of "-otherleaders" argv with
                            | Some i =>
                                (i, items_in_range argv (i + 1)
                                                   (List.length argv))
                            | None => (List.length argv, [])
                            end in
                          let other_hosts :=
                            items_in_range argv 6 leaders_head in
                          match nth_error (split_on ":" my_host) 1 with
                          | Some port =>
                              Started (mkConfig my_host leader other_hosts
                                                other_leaders port)
                          | None => Crashed IndexError
                          end
                      | _, _ => Crashed IndexError
                      end
                end
          end
    end.

End Main.

(** ** Solver: the loss window and the aggregation round *)

Module Solver.

(** A [collections.deque] of floats with a [maxlen]. *)
Record Deque : Type := mkDeque {
  items : list float;
  maxlen : nat }.

(** [deque(iterable, maxlen)] keeps the last [maxlen] items. *)
Definition deque (iterable : list float) (maxlen' : nat) : Deque :=
  mkDeque (skipn (List.length iterable - maxlen') iterable) maxlen'.

(** [d.appendleft(x)]: the new item goes in front, and an item falls
    off the other end when the deque is full. *)
Definition appendleft (x : float) (d : Deque) : Deque :=
  mkDeque (firstn (maxlen d) (x :: items d)) (maxlen d).

(** [d[i]] for an index that is not negative. *)
Definition getitem (d : Deque) (i : nat) : result float :=
  match nth_error (items d) i with
  | Some x => Return x
  | None => Raise IndexError
  end.

(** Line 53: [deque(50*[0.000], 50)]. *)
Definition initial_loss_list : Deque := deque (repeat 0%float 50) 50.

(** The literal [0.0200]: the binary64 number nearest to it. *)
Definition two_percent : float := 0x1.47ae147ae147bp-6%float.

(** Python's [x != y] on floats. *)
Definition float_ne (x y : float) : bool := negb (PrimFloat.eqb x y).

(** [convergent], lines 204-209, on the loss window. *)
Definition convergent (ten_recent_loss_list : Deque) : result bool :=
  match getitem ten_recent_loss_list 0 with
  | Raise e => Raise e
  | Return first =>
      if float_ne first 0%float then
        match getitem ten_recent_loss_list 49 with
        | Raise e => Raise e
        | Return last =>
            if float_ne last 0%float then
              let diff := PrimFloat.sub first last in
              let diff_percentage := PrimFloat.div diff last in
              Return (PrimFloat.ltb (PrimFloat.abs diff_percentage)
                                    two_percent)
            else Return false
        end
      else Return false
  end.

(** The window after the minibatch losses of [losses] were recorded,
    the first of the list first (line 83, once per minibatch). *)
Definition record_losses (losses : list float) (d : Deque) : Deque :=
  fold_left (fun d loss => appendleft loss d) losses d.

(** The predicate as section 4.5 words it: both slots are not zero and
    [|oldest - newest| / |newest| < 0.02]. *)
Definition spec_converged (oldest newest : float) : bool :=
  float_ne oldest 0%float && float_ne newest 0%float &&
  PrimFloat.ltb
    (PrimFloat.div (PrimFloat.abs (PrimFloat.sub oldest newest))
                   (PrimFloat.abs newest))
    two_percent.

(** The loss recorded [i] minibatches before the latest one, and zero
    when fewer than [i + 1] losses were recorded. *)
Definition loss_back (losses : list float) (i : nat) : float :=
  nth i (rev losses) 0%float.

Section Aggregation.

(** The numerical side is opaque to the round: a tensor, and the
    arithmetic [alpha * weight[idx]], [sum] and [data + sum_updates]
    line 167-171 use on it. *)
Variables Tensor Alpha : Type.
Variable tensor_scale : Alpha -> Tensor -> Tensor.
Variable tensor_add : Tensor -> Tensor -> Tensor.
(** The integer [0] that [sum] starts from. *)
Variable tensor_zero : Tensor.

(** The fairness bookkeeping of [src/update_metadata/device_fairness.py]
    is not among the sources; its three methods used by the round are
    taken as they are called.  Only the last one changes the state
    (section 4.3). *)
Variables Metadata FairnessState Flattened : Type.
Variable metadata_keys : Metadata -> list string.
Variable flatten_metadata :
  FairnessState -> list Metadata -> list string -> Flattened.
Variable get_alphas : FairnessState -> Flattened -> list Alpha.
Variable update_internal_state_after_aggregation :
  FairnessState -> list Alpha -> Flattened -> list string -> FairnessState.

Variable ModelUpdate : Type.

(** The deltas of one contribution: parameter index to tensor. *)
Definition Weights : Type := Dict.t Tensor.

(** What a drain of the queue of one host gives. *)
Definition Drained : Type :=
  (list Weights * list Metadata * list string)%type.

(** [PendingWork.empty_model_and_metadata_from] is not in the registry
    of the sources; it is taken as it is called on line 126. *)
Variable empty_model_and_metadata_from :
  string -> PendingWork.t ModelUpdate ->
  result Drained * PendingWork.t ModelUpdate.

(** The attributes of a [Solver] the round reads and writes. *)
Record t : Type := mk {
  parameter_pointers : Dict.t Tensor;
  minibatch_updates : option Weights;
  update_metadata : option Metadata;
  fairness_state : FairnessState;
  pending_work_queues : PendingWork.t ModelUpdate;
  ten_recent_loss_list : Deque }.

(** Lines 123-138: the queues of the other hosts are drained in turn,
    and a host with nothing queued is skipped. *)
Fixpoint drain_hosts (hosts : list string) (pw : PendingWork.t ModelUpdate)
         (acc : Drained) : result Drained * PendingWork.t ModelUpdate :=
  match hosts with
  | [] => (Return acc, pw)
  | host_id :: rest =>
      match empty_model_and_metadata_from host_id pw with
      | (Return (host_weight_list, host_metadata_list, id_list), pw) =>
          let '(weight_list, metadata_list, host_id_list) := acc in
          drain_hosts rest pw
                      (weight_list ++ host_weight_list,
                       metadata_list ++ host_metadata_list,
                       host_id_list ++ id_list)
      | (Raise EmptyQueueError, pw) => drain_hosts rest pw acc
      | (Raise e, pw) => (Raise e, pw)
      end
  end.

(** Lines 141-144: the contribution of this node joins the lists. *)
Definition add_own (s : t) (acc : Drained) : result Drained :=
  let '(weight_list, metadata_list, host_id_list) := acc in
  match minibatch_updates s with
  | None => Return acc
  | Some own_updates =>
      match update_metadata s with
      | None => Raise AttributeError
      | Some own_metadata =>
          Return (weight_list ++ [own_updates],
                  metadata_list ++ [own_metadata],
                  host_id_list ++ metadata_keys own_metadata)
      end
  end.

(** Lines 113-147: the lists of the round, with the host ids made a
    set, and the solver after its own contribution was taken. *)
Definition collect (s : t) : result Drained * t :=
  let pw := pending_work_queues s in
  match drain_hosts (PendingWork.other_hosts pw) pw ([], [], []) with
  | (Raise e, pw) =>
      (Raise e,
       mk (parameter_pointers s) (minibatch_updates s) (update_metadata s)
          (fairness_state s) pw (ten_recent_loss_list s))
  | (Return acc, pw) =>
      let s := mk (parameter_pointers s) (minibatch_updates s)
                  (update_metadata s) (fairness_state s) pw
                  (ten_recent_loss_list s) in
      match add_own s acc with
      | Raise e => (Raise e, s)
      | Return (weight_list, metadata_list, host_id_list) =>
          (Return (weight_list, metadata_list,
                   nodup string_dec host_id_list),
           mk (parameter_pointers s) None None (fairness_state s)
              (pending_work_queues s) (ten_recent_loss_list s))
      end
  end.

(** The terms [alpha * weight[idx]] of line 167-168. *)
Fixpoint weighted_terms (idx : string) (pairs : list (Alpha * Weights))
  : result (list Tensor) :=
  match pairs with
  | [] => Return []
  | (alpha, weight) :: rest =>
      match Dict.get weight idx with
      | None => Raise KeyError
      | Some w =>
          match weighted_terms idx rest with
          | Return terms => Return (tensor_scale alpha w :: terms)
          | Raise e => Raise e
          end
      end
  end.

(** Python's [sum] of a list. *)
Definition py_sum (terms : list Tensor) : Tensor :=
  fold_left tensor_add terms tensor_zero.

(** Lines 163-171: each parameter receives the weighted sum of its
    deltas, one index after the other. *)
Fixpoint apply_updates (idxs : list string) (params : Dict.t Tensor)
         (pairs : list (Alpha * Weights)) : result unit * Dict.t Tensor :=
  match idxs with
  | [] => (Return tt, params)
  | idx :: rest =>
      match weighted_terms idx pairs with
      | Raise e => (Raise e, params)
      | Return terms =>
          match Dict.get params idx with
          | None => (Raise KeyError, params)
          | Some data =>
              apply_updates rest
                (Dict.set params idx (tensor_add data (py_sum terms)))
                pairs
          end
      end
  end.

(** The alpha weights of the round, line 148-149. *)
Definition round_alphas (s : t) (metadata_list : list Metadata)
           (host_id_list : list string) : list Alpha :=
  get_alphas (fairness_state s)
             (flatten_metadata (fairness_state s) metadata_list host_id_list).

(** The sanity check of line 152. *)
Definition counts_differ (alphas : list Alpha) (weight_list : list Weights)
           (metadata_list : list Metadata) : bool :=
  negb (Nat.eqb (List.length alphas) (List.length weight_list))
  || negb (Nat.eqb (List.length weight_list) (List.length metadata_list)).

(** [aggregate_received_updates], lines 112-173. *)
Definition aggregate_received_updates (s : t) : result unit * t :=
  match collect s with
  | (Raise e, s) => (Raise e, s)
  | (Return (weight_list, metadata_list, host_id_list), s) =>
      let flattened_metadata_list :=
        flatten_metadata (fairness_state s) metadata_list host_id_list in
      let alphas := get_alphas (fairness_state s) flattened_metadata_list in
      if counts_differ alphas weight_list metadata_list
      then (Raise ValueError, s)
      else
        let fs := update_internal_state_after_aggregation
                    (fairness_state s) alphas flattened_metadata_list
                    host_id_list in
        let '(r, params) :=
          apply_updates (Dict.keys (parameter_pointers s))
                        (parameter_pointers s)
                        (combine alphas weight_list) in
        (r, mk params (minibatch_updates s) (update_metadata s) fs
               (pending_work_queues s) (ten_recent_loss_list s))
  end.

End Aggregation.

Arguments mk {Tensor Metadata FairnessState ModelUpdate}.
Arguments parameter_pointers {Tensor Metadata FairnessState ModelUpdate}.
Arguments minibatch_updates {Tensor Metadata FairnessState ModelUpdate}.
Arguments update_metadata {Tensor Metadata FairnessState ModelUpdate}.
Arguments fairness_state {Tensor Metadata FairnessState ModelUpdate}.
Arguments pending_work_queues {Tensor Metadata FairnessState ModelUpdate}.
Arguments ten_recent_loss_list {Tensor Metadata FairnessState ModelUpdate}.
Arguments drain_hosts {Tensor Metadata ModelUpdate}.
Arguments add_own {Tensor Metadata FairnessState} _ {ModelUpdate}.
Arguments collect {Tensor Metadata FairnessState} _ {ModelUpdate}.
Arguments weighted_terms {Tensor Alpha}.
Arguments py_sum {Tensor}.
Arguments apply_updates {Tensor Alpha}.
Arguments round_alphas {Tensor Alpha Metadata FairnessState Flattened} _ _
          {ModelUpdate}.
Arguments counts_differ {Tensor Alpha Metadata}.
Arguments aggregate_received_updates {Tensor Alpha} _ _ _
          {Metadata FairnessState Flattened} _ _ _ _ {ModelUpdate}.

End Solver.

(** ** Cluster.py: the gradient-descent simulator *)

(** A Python dictionary with integer keys. *)
Module IntDict.

Definition t (V : Type) : Type := list (Z * V).

Fixpoint get {V : Type} (d : t V) (key : Z) : option V :=
  match d with
  | [] => None
  | (k0, v0) :: rest => if Z.eqb k0 key then Some v0 else get rest key
  end.

Fixpoint set {V : Type} (d : t V) (key : Z) (v : V) : t V :=
  match d with
  | [] => [(key, v)]
  | (k0, v0) :: rest =>
      if Z.eqb k0 key then (k0, v) :: rest
      else (k0, v0) :: set rest key v
  end.

End IntDict.

Module Cluster.

(** A data set: rows of numbers. *)
Definition Rows : Type := list (list float).

(** The attributes of a [Cluster].  [X] and [y] are [None] as long as
    they hold the placeholder [0] of the constructor.  [cluster_table]
    refers to the other clusters by their id. *)
Record t : Type := mk {
  machine_speed : Z;
  X : option Rows;
  y : option Rows;
  latency_table : IntDict.t Z;
  cluster_table : IntDict.t Z;
  id : Z }.

(** [Cluster(machine_speed)], with the class attribute [MAX_ID] passed
    in and out. *)
Definition new (machine_speed' : Z) (MAX_ID : Z) : t * Z :=
  (mk machine_speed' None None [] [] (MAX_ID + 1), MAX_ID + 1).

Definition get_id (c : t) : Z := id c.

(** [set_data_set]: [np.c_[np.ones((len(X), 1)), X]] puts a 1 in front
    of every row. *)
Definition set_data_set (X' y' : Rows) (c : t) : t :=
  mk (machine_speed c) (Some (map (cons 1%float) X')) (Some y')
     (latency_table c) (cluster_table c) (id c).

Definition set_latency_to (cluster : t) (latency : Z) (c : t) : t :=
  mk (machine_speed c) (X c) (y c)
     (IntDict.set (latency_table c) (get_id cluster) latency)
     (IntDict.set (cluster_table c) (get_id cluster) (get_id cluster))
     (id c).

(** [l[lo:hi]] for [lo <= hi]. *)
Definition slice {A : Type} (l : list A) (lo hi : nat) : list A :=
  firstn (hi - lo) (skipn lo l).

(** [l[i] = v] for an index within the list. *)
Fixpoint set_item {A : Type} (l : list A) (i : nat) (v : A) : list A :=
  match l, i with
  | [], _ => []
  | _ :: rest, O => v :: rest
  | x :: rest, S i' => x :: set_item rest i' v
  end.

Section Descent.

(** [sgd.compute_local_theta] is not among the sources, and the first
    [theta] is drawn at random: both are taken as they are used in
    [go]. *)
Variable Theta : Type.
Variable compute_local_theta :
  nat -> Rows -> Rows -> Theta -> float -> Theta * float.

Definition iterations : nat := 50.

(** One turn of the loop over [it]: the cost starts from 0 and the
    inner loop runs [m] times. *)
Definition one_pass (m : nat) (X' y' : Rows) (theta : Theta) : Theta * float :=
  Nat.iter m (fun tc => compute_local_theta m X' y' (fst tc) (snd tc))
           (theta, 0%float).

(** [theta] and [cost] after [n] turns of the loop over [it], [n]
    positive. *)
Definition passes (n m : nat) (X' y' : Rows) (theta : Theta) : Theta * float :=
  Nat.iter n (fun tc => one_pass m X' y' (fst tc)) (theta, 0%float).

(** [go]: [None] stands for the [TypeError] of [len(self.y)] when no
    data set was given.  The assignment to [cost_history] comes after
    the loop, when [it] is 49. *)
Definition go (theta : Theta) (c : t) : option (Theta * list float) :=
  match X c, y c with
  | Some X', Some y' =>
      let m := List.length y' in
      let cost_history := repeat 0%float iterations in
      let '(theta, cost) := passes iterations m X' y' theta in
      Some (theta, set_item cost_history (iterations - 1) cost)
  | _, _ => None
  end.

End Descent.

(** [f] on each item with its index. *)
Definition mapi {A B : Type} (f : nat -> A -> B) (l : list A) : list B :=
  map (fun ka => f (fst ka) (snd ka)) (combine (seq 0 (List.length l)) l).

(** [[Cluster(k % max_machine_speed) for k in range(n)]] *)
Fixpoint make_clusters_from (k n : nat) (max_machine_speed MAX_ID : Z)
  : list t * Z :=
  match n with
  | O => ([], MAX_ID)
  | S n' =>
      let '(c, MAX_ID) := new (Z.of_nat k mod max_machine_speed) MAX_ID in
      let '(rest, MAX_ID) :=
        make_clusters_from (S k) n' max_machine_speed MAX_ID in
      (c :: rest, MAX_ID)
  end.

Definition make_clusters (n : nat) (max_machine_speed MAX_ID : Z)
  : list t * Z :=
  make_clusters_from 0 n max_machine_speed MAX_ID.

(** Lines 91-95: cluster [k] gets the rows [k * size] to
    [(k + 1) * size]. *)
Definition assign_data (X' y' : Rows) (clusters : list t) : list t :=
  let size_of_data_partition := (List.length X' / List.length clusters)%nat in
  mapi (fun k c =>
          let low := (k * size_of_data_partition)%nat in
          let hi := ((k + 1) * size_of_data_partition)%nat in
          set_data_set (slice X' low hi) (slice y' low hi) c)
       clusters.

(** Lines 96-99: each cluster gets a latency to every other one. *)
Definition assign_latencies (max_server_latency : Z) (clusters : list t)
  : list t :=
  mapi (fun k c =>
          fold_left
            (fun c jc =>
               if Nat.eqb k (fst jc) then c
               else set_latency_to
                      (snd jc)
                      ((Z.of_nat k + Z.of_nat (fst jc)) mod max_server_latency)
                      c)
            (combine (seq 0 (List.length clusters)) clusters) c)
       clusters.

(** [main] up to the launch, for [n] clusters (100 in the source) and
    the data drawn. *)
Definition main_clusters (n : nat) (X' y' : Rows) (MAX_ID : Z) : list t :=
  let max_machine_speed := 3 in
  let max_server_latency := 5 in
  let clusters := fst (make_clusters n max_machine_speed MAX_ID) in
  assign_latencies max_server_latency (assign_data X' y' clusters).

End Cluster.

(** ** Concrete registries and rounds *)

Module Scenario.

Definition node0 : PendingWork.Node :=
  PendingWork.mkNode 0 (PendingWork.mkSender 0).

(** Scenario A of section 8, with strings for updates as in
    [unit/pendingwork.py]: [PendingWork(ratio)] after
    [setup("n0", ["n1", "n2"], "n0")]. *)
Definition fresh (ratio : Z) : PendingWork.t string :=
  PendingWork.setup "n0" ["n1"; "n2"] "n0" (PendingWork.init string ratio node0).

(** The same registry after [enqueue("u1", "n1")]. *)
Definition one_queued (ratio : Z) : PendingWork.t string :=
  PendingWork.after (PendingWork.Enqueue "u1" "n1") (fresh ratio).

(** Scenario A once its three updates are queued: ["u3"] for ["n0"],
    ["u1"] and ["u2"] for ["n1"]. *)
Definition three_queued : PendingWork.t string :=
  PendingWork.after_all
    [PendingWork.Enqueue "u1" "n1"; PendingWork.Enqueue "u2" "n1";
     PendingWork.Enqueue "u3" "n0"] (fresh 100).

(** A registry with a negative ratio after an update of ["n1"] was
    queued and the queues were cleared. *)
Definition cleared_negative : PendingWork.t string :=
  PendingWork.after_all
    [PendingWork.Enqueue "u1" "n1"; PendingWork.ClearAll] (fresh (-1)).

(** A toy fairness state: one alpha for each host id of the round. *)
Definition flatten_metadata (fs : Dict.t Z) (metadata_list : list (Dict.t Z))
           (host_id_list : list string) : list Z :=
  map (fun host_id =>
         match Dict.get (List.concat metadata_list) host_id with
         | Some epoch => epoch
         | None => match Dict.get fs host_id with
                   | Some epoch => epoch
                   | None => 0
                   end
         end) host_id_list.

Definition get_alphas (fs : Dict.t Z) (flattened : list Z) : list Z :=
  map (fun _ => 1) flattened.

Definition update_internal_state_after_aggregation (fs : Dict.t Z)
           (alphas flattened : list Z) (host_id_list : list string)
  : Dict.t Z :=
  fold_left (fun fs '(host_id, epoch) => Dict.set fs host_id epoch)
            (combine host_id_list flattened) fs.

(** No peer has anything queued. *)
Definition empty_model_and_metadata_from (host_id : string)
           (pw : PendingWork.t string)
  : result (Solver.Drained Z (Dict.t Z)) * PendingWork.t string :=
  (Raise EmptyQueueError, pw).

(** A solver whose own contribution carries the counters of two
    hosts. *)
Definition solver0 : Solver.t Z (Dict.t Z) (Dict.t Z) string :=
  Solver.mk [("0", 10)] (Some [("0", 1)]) (Some [("n0", 5); ("n1", 3)])
            [] (fresh 2) Solver.initial_loss_list.

(** The same solver once its contribution was collected. *)
Definition solver1 : Solver.t Z (Dict.t Z) (Dict.t Z) string :=
  Solver.mk [("0", 10)] None None [] (fresh 2) Solver.initial_loss_list.

(** An update as a peer sends it: its deltas and its metadata. *)
Definition PeerUpdate : Type := (Dict.t Z * Dict.t Z)%type.

(** A toy drain: the oldest update queued for the host, when there is
    one, with the host ids its metadata name. *)
Definition drain_oldest (host_id : string) (pw : PendingWork.t PeerUpdate)
  : result (Solver.Drained Z (Dict.t Z)) * PendingWork.t PeerUpdate :=
  match PendingWork.dequeue host_id pw with
  | (Return (updates, update_metadata), pw) =>
      (Return ([updates], [update_metadata], Dict.keys update_metadata), pw)
  | (Raise e, pw) => (Raise e, pw)
  end.

(** A solver with a contribution of its own, which carries the counters
    of ["n0"] and ["n2"], and a contribution of ["n1"] in its queue. *)
Definition solver_with_peer : Solver.t Z (Dict.t Z) (Dict.t Z) PeerUpdate :=
  Solver.mk [("0", 10)] (Some [("0", 1)]) (Some [("n0", 5); ("n2", 1)]) []
            (PendingWork.after
               (PendingWork.Enqueue ([("0", 2)], [("n1", 3)]) "n1")
               (PendingWork.setup "n0" ["n1"; "n2"] "n0"
                                  (PendingWork.init PeerUpdate 2 node0)))
            Solver.initial_loss_list.

(** The registry of scenario A with five records queued for the leader
    and the barrier put up with [freeze_node]. *)
Definition frozen_crowded : PendingWork.t string :=
  PendingWork.freeze_node
    (PendingWork.after_all
       [PendingWork.Enqueue "u1" "n0"; PendingWork.Enqueue "u2" "n0";
        PendingWork.Enqueue "u3" "n0"; PendingWork.Enqueue "u4" "n0";
        PendingWork.Enqueue "u5" "n0"] (fresh 2)).

(** A decoder that takes the body as the update. *)
Definition decode (body : string) : result string := Return body.

(** Three clusters made from [MAX_ID = 0] with their data still unset. *)
Definition three_clusters : list Cluster.t :=
  fst (Cluster.make_clusters 3 3 0).

End Scenario.

(** * Properties of the registry *)

#[local] Arguments Z.add : simpl never.
#[local] Arguments Z.sub : simpl never.
#[local] Arguments Z.mul : simpl never.
#[local] Arguments Z.of_nat : simpl never.
#[local] Arguments UpdateQueue.len : simpl never.

Section DictFacts.

Variable V : Type.

Lemma get_set_same (d : Dict.t V) (key : string) (v : V) :
  Dict.get (Dict.set d key v) key = Some v.
Proof.
  induction d as [|[k0 v0] rest IH]; simpl.
  - now rewrite String.eqb_refl.
  - destruct (String.eqb k0 key) eqn:E; simpl; rewrite E; auto.
Qed.

Lemma get_set_other (d : Dict.t V) (key key' : string) (v : V) :
  key <> key' -> Dict.get (Dict.set d key v) key' = Dict.get d key'.
Proof.
  intros N. induction d as [|[k0 v0] rest IH]; simpl.
  - destruct (String.eqb key key') eqn:E; auto.
    apply String.eqb_eq in E. contradiction.
  - destruct (String.eqb k0 key) eqn:E; simpl.
    + apply String.eqb_eq in E. subst k0.
      destruct (String.eqb key key') eqn:E'; auto.
      apply String.eqb_eq in E'. contradiction.
    + destruct (String.eqb k0 key'); auto.
Qed.

Lemma keys_set_present (d : Dict.t V) (key : string) (v v' : V) :
  Dict.get d key = Some v' -> Dict.keys (Dict.set d key v) = Dict.keys d.
Proof.
  induction d as [|[k0 v0] rest IH]; simpl; [discriminate|].
  destruct (String.eqb k0 key); simpl; auto.
  intros H. f_equal. auto.
Qed.

Lemma keys_set_absent (d : Dict.t V) (key : string) (v : V) :
  Dict.get d key = None -> Dict.keys (Dict.set d key v) = Dict.keys d ++ [key].
Proof.
  induction d as [|[k0 v0] rest IH]; simpl; auto.
  destruct (String.eqb k0 key); simpl; [discriminate|].
  intros H. f_equal. auto.
Qed.

End DictFacts.

Section CounterFacts.

Variable ModelUpdate : Type.

Abbreviation registry := (PendingWork.t ModelUpdate).
Abbreviation dict := (Dict.t (UpdateQueue.t ModelUpdate)).

(** Arithmetic on queue lengths. *)
Ltac len_arith :=
  unfold UpdateQueue.len, UpdateQueue.new, UpdateQueue.clear in *;
  cbn [List.length] in *;
  rewrite ?Zpos_P_of_succ_nat, ?Nat2Z.inj_succ in *;
  lia.

Lemma len_cons (u : ModelUpdate) (q : UpdateQueue.t ModelUpdate) :
  UpdateQueue.len (u :: q) = UpdateQueue.len q + 1.
Proof. len_arith. Qed.

Lemma len_nonneg (q : UpdateQueue.t ModelUpdate) : 0 <= UpdateQueue.len q.
Proof. unfold UpdateQueue.len. lia. Qed.

Lemma len_enqueue (u : ModelUpdate) (q : UpdateQueue.t ModelUpdate) :
  UpdateQueue.len (UpdateQueue.enqueue u q) = UpdateQueue.len q + 1.
Proof.
  unfold UpdateQueue.len, UpdateQueue.enqueue.
  rewrite length_app. simpl. lia.
Qed.

Lemma sum_len_nonneg (qs : dict) : 0 <= PendingWork.sum_len qs.
Proof.
  induction qs as [|[key q] rest IH]; simpl; [lia|].
  pose proof (len_nonneg q). lia.
Qed.

Lemma sum_len_set_present (qs : dict) (host : string)
      (q q' : UpdateQueue.t ModelUpdate) :
  Dict.get qs host = Some q ->
  PendingWork.sum_len (Dict.set qs host q')
  = PendingWork.sum_len qs - UpdateQueue.len q + UpdateQueue.len q'.
Proof.
  induction qs as [|[k0 q0] rest IH]; simpl; [discriminate|].
  destruct (String.eqb k0 host); simpl.
  - intros [= ->]. lia.
  - intros H. rewrite (IH H). lia.
Qed.

Lemma sum_len_set_absent (qs : dict) (host : string)
      (q' : UpdateQueue.t ModelUpdate) :
  Dict.get qs host = None ->
  PendingWork.sum_len (Dict.set qs host q')
  = PendingWork.sum_len qs + UpdateQueue.len q'.
Proof.
  induction qs as [|[k0 q0] rest IH]; simpl; [lia|].
  destruct (String.eqb k0 host); simpl; [discriminate|].
  intros H. rewrite (IH H). lia.
Qed.

(** Setting a key to the empty queue in a dictionary of empty queues
    leaves every queue empty. *)
Lemma sum_len_set_new_zero (qs : dict) (host : string) :
  PendingWork.sum_len qs = 0 ->
  PendingWork.sum_len (Dict.set qs host UpdateQueue.new) = 0.
Proof.
  intros Z0. destruct (Dict.get qs host) as [q|] eqn:G.
  - rewrite (sum_len_set_present _ _ _ _ G).
    assert (UpdateQueue.len q = 0).
    { clear - G Z0. induction qs as [|[k0 q0] rest IH]; simpl in *;
        [discriminate|].
      pose proof (len_nonneg q0). pose proof (sum_len_nonneg rest).
      destruct (String.eqb k0 host).
      - injection G as ->. lia.
      - apply IH; auto. lia. }
    unfold UpdateQueue.new, UpdateQueue.len in *. simpl. lia.
  - rewrite (sum_len_set_absent _ _ _ G). unfold UpdateQueue.len. simpl. lia.
Qed.

Lemma sum_len_setup_fold (others : list string) (qs : dict) :
  PendingWork.sum_len qs = 0 ->
  PendingWork.sum_len
    (fold_left (fun d host => Dict.set d host UpdateQueue.new) others qs) = 0.
Proof.
  revert qs. induction others as [|h rest IH]; simpl; auto.
  intros qs Z0. apply IH. now apply sum_len_set_new_zero.
Qed.

Lemma counter_ok_setup (ratio : Z) (nd : PendingWork.Node) (me : string)
      (others : list string) (ldr : string) :
  PendingWork.counter_ok
    (PendingWork.setup me others ldr (PendingWork.init ModelUpdate ratio nd)).
Proof.
  unfold PendingWork.counter_ok. simpl.
  symmetry. apply sum_len_setup_fold. reflexivity.
Qed.

Lemma counter_ok_enqueue_locked (u : ModelUpdate) (host : string)
      (s : registry) :
  PendingWork.counter_ok s ->
  PendingWork.counter_ok (snd (PendingWork.enqueue_locked u host s)).
Proof.
  unfold PendingWork.counter_ok, PendingWork.enqueue_locked. intros I.
  destruct (Dict.get (PendingWork.queues s) host) as [q|] eqn:G.
  - destruct (PendingWork.pushes_back s q); simpl; auto.
    rewrite (sum_len_set_present _ _ _ _ G), len_enqueue. lia.
  - simpl. rewrite (sum_len_set_absent _ _ _ G), len_enqueue.
    unfold UpdateQueue.new, UpdateQueue.len. simpl. lia.
Qed.

Lemma counter_ok_enqueue (u : ModelUpdate) (host : string) (s : registry) :
  PendingWork.counter_ok s ->
  PendingWork.counter_ok (snd (PendingWork.enqueue u host s)).
Proof.
  intros I. unfold PendingWork.enqueue.
  destruct (PendingWork.frozen s); [|now apply counter_ok_enqueue_locked].
  destruct (String.eqb host (PendingWork.leader s)); auto.
  apply counter_ok_enqueue_locked. exact I.
Qed.

Lemma counter_ok_dequeue (host : string) (s : registry) :
  PendingWork.counter_ok s ->
  PendingWork.counter_ok (snd (PendingWork.dequeue host s)).
Proof.
  unfold PendingWork.counter_ok, PendingWork.dequeue. intros I.
  destruct (PendingWork.total_no_of_updates s =? 0); auto.
  destruct (Dict.get (PendingWork.queues s) host) as [q|] eqn:G.
  - destruct (UpdateQueue.len q >? 0); auto.
    destruct q as [|u q']; simpl; auto.
    rewrite (sum_len_set_present _ _ _ _ G).
    unfold UpdateQueue.len. simpl List.length. lia.
  - simpl. rewrite (sum_len_set_absent _ _ _ G).
    unfold UpdateQueue.len. simpl. lia.
Qed.

Lemma dequeue_every_queue_loop_spec (qs : dict) (total : Z) :
  snd (PendingWork.dequeue_every_queue_loop qs total)
  = total - PendingWork.sum_len qs
  /\ PendingWork.sum_len (fst (PendingWork.dequeue_every_queue_loop qs total))
     = 0
  /\ Dict.keys (fst (PendingWork.dequeue_every_queue_loop qs total))
     = Dict.keys qs.
Proof.
  revert total. induction qs as [|[key q] rest IH]; intros total; simpl.
  - repeat split; lia.
  - specialize (IH (total - UpdateQueue.len q)).
    destruct (PendingWork.dequeue_every_queue_loop rest
                (total - UpdateQueue.len q)) as [rest' total'].
    simpl in *. destruct IH as (A & B & C).
    repeat split; [lia | | now f_equal].
    exact B.
Qed.

Lemma counter_ok_dequeue_every_queue (s : registry) :
  PendingWork.counter_ok s ->
  PendingWork.counter_ok (PendingWork.dequeue_every_queue s).
Proof.
  unfold PendingWork.counter_ok, PendingWork.dequeue_every_queue. intros I.
  pose proof (dequeue_every_queue_loop_spec (PendingWork.queues s)
                (PendingWork.total_no_of_updates s)) as (A & B & _).
  destruct (PendingWork.dequeue_every_queue_loop (PendingWork.queues s)
              (PendingWork.total_no_of_updates s)) as [qs total].
  simpl in *. lia.
Qed.

Lemma counter_ok_clear_all (s : registry) :
  PendingWork.counter_ok s ->
  PendingWork.counter_ok (PendingWork.clear_all s).
Proof.
  intros I. unfold PendingWork.clear_all.
  apply counter_ok_dequeue_every_queue. exact I.
Qed.

(** A record that leaves the loop of [dequeue_random] has left its
    queue, and nothing else changed. *)
Lemma dequeue_random_loop_sum (qs qs' : dict) (r : Z) (key : string)
      (ret : result ModelUpdate) :
  PendingWork.dequeue_random_loop qs r = Some (key, ret, qs') ->
  match ret with
  | Return _ => PendingWork.sum_len qs' = PendingWork.sum_len qs - 1
  | Raise _ => qs' = qs
  end
  /\ Dict.keys qs' = Dict.keys qs.
Proof.
  revert r qs'. induction qs as [|[k0 q] rest IH]; intros r qs'; simpl;
    [discriminate|].
  destruct (UpdateQueue.len q >? r).
  - destruct q as [|u q']; simpl; intros [= <- <- <-]; simpl; auto.
    split; auto. len_arith.
  - destruct (PendingWork.dequeue_random_loop rest (r - UpdateQueue.len q))
      as [[[key' ret'] rest']|] eqn:L; [|discriminate].
    intros [= <- <- <-]. destruct (IH _ _ L) as [A B].
    split; [|simpl; now f_equal].
    destruct ret'; simpl in A |- *; [lia | now f_equal].
Qed.

Lemma counter_ok_dequeue_random (r : Z) (s : registry) :
  PendingWork.counter_ok s ->
  PendingWork.counter_ok (snd (PendingWork.dequeue_random r s)).
Proof.
  unfold PendingWork.counter_ok, PendingWork.dequeue_random. intros I.
  destruct (PendingWork.total_no_of_updates s =? 0); auto.
  destruct (PendingWork.dequeue_random_loop (PendingWork.queues s) r)
    as [[[key ret] qs']|] eqn:L; auto.
  destruct ret; auto. simpl.
  destruct (dequeue_random_loop_sum _ _ _ _ _ L) as [A _]. simpl in A. lia.
Qed.

Lemma counter_ok_after (c : PendingWork.call ModelUpdate) (s : registry) :
  PendingWork.counter_ok s -> PendingWork.counter_ok (PendingWork.after c s).
Proof.
  destruct c; simpl.
  - apply counter_ok_enqueue.
  - apply counter_ok_dequeue.
  - apply counter_ok_dequeue_random.
  - apply counter_ok_dequeue_every_queue.
  - apply counter_ok_clear_all.
Qed.

(** C1.  Start from a registry that was just set up and make any
    sequence of calls of [enqueue], [dequeue], [dequeue_random],
    [dequeue_every_queue] and [clear_all]: after every call, whether it
    returned or raised, [total_no_of_updates] is the sum of the lengths
    of the queues. *)
Theorem C1_counter_is_sum_of_queue_lengths
        (ratio : Z) (nd : PendingWork.Node) (me : string)
        (others : list string) (ldr : string) (s : registry) :
  PendingWork.reachable ratio nd me others ldr s ->
  PendingWork.total_no_of_updates s = PendingWork.sum_len (PendingWork.queues s).
Proof.
  intros R. change (PendingWork.counter_ok s).
  induction R as [|s c R IH P].
  - apply counter_ok_setup.
  - now apply counter_ok_after.
Qed.

End CounterFacts.

Section AdmissionFacts.

Variable ModelUpdate : Type.

Abbreviation registry := (PendingWork.t ModelUpdate).

(** What [enqueue_locked] does to a queue that exists and is not
    pushed back. *)
Lemma enqueue_locked_existing (u : ModelUpdate) (host : string)
      (s : registry) (q : UpdateQueue.t ModelUpdate) :
  Dict.get (PendingWork.queues s) host = Some q ->
  PendingWork.pushes_back s q = false ->
  let r := PendingWork.enqueue_locked u host s in
  fst r = Return tt
  /\ Dict.get (PendingWork.queues (snd r)) host = Some (q ++ [u])
  /\ (forall host', host <> host' ->
        Dict.get (PendingWork.queues (snd r)) host'
        = Dict.get (PendingWork.queues s) host')
  /\ PendingWork.total_no_of_updates (snd r)
     = PendingWork.total_no_of_updates s + 1
  /\ PendingWork.frozen (snd r) = PendingWork.frozen s.
Proof.
  intros G P. unfold PendingWork.enqueue_locked. rewrite G, P. simpl.
  repeat split.
  - apply get_set_same.
  - intros host' N. now apply get_set_other.
Qed.

(** What [enqueue_locked] does for a host without a queue. *)
Lemma enqueue_locked_new (u : ModelUpdate) (host : string) (s : registry) :
  Dict.get (PendingWork.queues s) host = None ->
  let r := PendingWork.enqueue_locked u host s in
  fst r = Return tt
  /\ Dict.get (PendingWork.queues (snd r)) host = Some [u]
  /\ (forall host', host <> host' ->
        Dict.get (PendingWork.queues (snd r)) host'
        = Dict.get (PendingWork.queues s) host')
  /\ PendingWork.total_no_of_updates (snd r)
     = PendingWork.total_no_of_updates s + 1
  /\ PendingWork.frozen (snd r) = PendingWork.frozen s.
Proof.
  intros G. unfold PendingWork.enqueue_locked. rewrite G. simpl.
  repeat split.
  - apply get_set_same.
  - intros host' N. now apply get_set_other.
Qed.

Lemma pushes_back_iff (s : registry) (q : UpdateQueue.t ModelUpdate) (m : Z) :
  PendingWork.min_queue_len s = Some m ->
  PendingWork.pushes_back s q = true
  <-> UpdateQueue.len q > PendingWork.k s * m.
Proof.
  intros M. unfold PendingWork.pushes_back. rewrite M.
  rewrite Z.gtb_ltb, Z.ltb_lt. lia.
Qed.

(** C2.  In a registry that is not frozen, with ratio [k] and cached
    minimum [m], an enqueue to a queue that exists raises
    [DevicePushbackError] and changes nothing exactly when the queue
    is longer than [k * m]; at length [k * m] or below it returns and
    the record is the new last element of the queue. *)
Theorem C2_pushback_exactly_above_ratio
        (u : ModelUpdate) (host : string) (s : registry) (m : Z)
        (q : UpdateQueue.t ModelUpdate) :
  PendingWork.frozen s = false ->
  PendingWork.min_queue_len s = Some m ->
  Dict.get (PendingWork.queues s) host = Some q ->
  (UpdateQueue.len q > PendingWork.k s * m ->
     PendingWork.enqueue u host s = (Raise DevicePushbackError, s))
  /\ (UpdateQueue.len q <= PendingWork.k s * m ->
        fst (PendingWork.enqueue u host s) = Return tt
        /\ Dict.get (PendingWork.queues (snd (PendingWork.enqueue u host s)))
                    host = Some (UpdateQueue.enqueue u q)
        /\ PendingWork.total_no_of_updates
             (snd (PendingWork.enqueue u host s))
           = PendingWork.total_no_of_updates s + 1)
  /\ (fst (PendingWork.enqueue u host s) = Raise DevicePushbackError
      <-> UpdateQueue.len q > PendingWork.k s * m).
Proof.
  intros F M G. unfold PendingWork.enqueue. rewrite F.
  pose proof (pushes_back_iff s q m M) as PB.
  destruct (PendingWork.pushes_back s q) eqn:P.
  - assert (UpdateQueue.len q > PendingWork.k s * m) as L by now apply PB.
    unfold PendingWork.enqueue_locked. rewrite G, P. simpl.
    repeat split; auto; lia.
  - assert (~ UpdateQueue.len q > PendingWork.k s * m) as L.
    { intros L. apply PB in L. discriminate. }
    destruct (enqueue_locked_existing u host s q G P) as (A & B & _ & D & _).
    repeat split; auto; try lia.
    rewrite A. discriminate.
Qed.

(** C7.  [dequeue host] raises [EmptyQueueError] and changes nothing
    when the counter is zero or the queue of the host is empty; for a
    host that has no queue while the counter is not zero it raises
    [EmptyQueueError] after it created the empty queue; otherwise it
    returns the oldest record of the queue, which loses it, and the
    counter goes down by one.  Whenever it raises, the error is
    [EmptyQueueError] and the counter is unchanged. *)
Theorem C7_dequeue_oldest_or_empty_queue_error (host : string) (s : registry) :
  (PendingWork.total_no_of_updates s = 0 ->
     PendingWork.dequeue host s = (Raise EmptyQueueError, s))
  /\ (PendingWork.total_no_of_updates s <> 0 ->
      Dict.get (PendingWork.queues s) host = Some [] ->
        PendingWork.dequeue host s = (Raise EmptyQueueError, s))
  /\ (PendingWork.total_no_of_updates s <> 0 ->
      Dict.get (PendingWork.queues s) host = None ->
        fst (PendingWork.dequeue host s) = Raise EmptyQueueError
        /\ PendingWork.queues (snd (PendingWork.dequeue host s))
           = PendingWork.queues s ++ [(host, UpdateQueue.new)]
        /\ PendingWork.total_no_of_updates (snd (PendingWork.dequeue host s))
           = PendingWork.total_no_of_updates s)
  /\ (forall oldest q,
      PendingWork.total_no_of_updates s <> 0 ->
      Dict.get (PendingWork.queues s) host = Some (oldest :: q) ->
        fst (PendingWork.dequeue host s) = Return oldest
        /\ Dict.get (PendingWork.queues (snd (PendingWork.dequeue host s)))
                    host = Some q
        /\ PendingWork.total_no_of_updates (snd (PendingWork.dequeue host s))
           = PendingWork.total_no_of_updates s - 1)
  /\ (forall e,
      fst (PendingWork.dequeue host s) = Raise e ->
        e = EmptyQueueError
        /\ PendingWork.total_no_of_updates (snd (PendingWork.dequeue host s))
           = PendingWork.total_no_of_updates s).
Proof.
  unfold PendingWork.dequeue.
  destruct (PendingWork.total_no_of_updates s =? 0) eqn:T.
  - apply Z.eqb_eq in T.
    repeat split; try congruence; simpl in *; congruence.
  - apply Z.eqb_neq in T.
    split; [congruence|].
    split; [intros _ G; rewrite G; reflexivity|].
    split.
    { intros _ G. rewrite G. simpl. repeat split.
      clear T. induction (PendingWork.queues s) as [|[k0 q0] rest IH];
        simpl in *; auto.
      destruct (String.eqb k0 host); [discriminate|]. f_equal. auto. }
    split.
    { intros oldest q _ G. rewrite G.
      replace (UpdateQueue.len (oldest :: q) >? 0) with true.
      - simpl. repeat split. apply get_set_same.
      - symmetry. rewrite Z.gtb_ltb, Z.ltb_lt.
        unfold UpdateQueue.len. simpl List.length. lia. }
    intros e.
    destruct (Dict.get (PendingWork.queues s) host) as [[|oldest q]|];
      simpl.
    + intros [= <-]. auto.
    + replace (UpdateQueue.len (oldest :: q) >? 0) with true.
      * simpl. discriminate.
      * symmetry. rewrite Z.gtb_ltb, Z.ltb_lt.
        unfold UpdateQueue.len. simpl List.length. lia.
    + intros [= <-]. auto.
Qed.

End AdmissionFacts.

(** C9.  The handler of [/clear_all_queues] answers a sender that is not
    the leader with the refusal and leaves the registry as it was,
    queues, counter and [frozen] included; it calls [clear_all] if and
    only if the sender is the leader. *)
Theorem C9_only_the_leader_clears
        (ModelUpdate : Type) (content : Main.ClearRequest)
        (pw : PendingWork.t ModelUpdate) :
  (Main.sender content <> PendingWork.leader pw ->
     Main.clear_all_queues content pw = (Main.non_leader_response, pw))
  /\ (Main.sender content = PendingWork.leader pw ->
        Main.clear_all_queues content pw
        = (Main.cleared_response, PendingWork.clear_all pw))
  /\ (fst (Main.clear_all_queues content pw) = Main.cleared_response
      <-> Main.sender content = PendingWork.leader pw).
Proof.
  unfold Main.clear_all_queues.
  destruct (String.eqb (Main.sender content) (PendingWork.leader pw)) eqn:E;
    simpl.
  - apply String.eqb_eq in E. repeat split; auto; contradiction.
  - apply String.eqb_neq in E. repeat split; auto; try contradiction.
    discriminate.
Qed.

Section RandomDequeueFacts.

Variable ModelUpdate : Type.

Abbreviation registry := (PendingWork.t ModelUpdate).
Abbreviation dict := (Dict.t (UpdateQueue.t ModelUpdate)).

(** A number below the sum of the lengths always finds its record. *)
Lemma dequeue_random_loop_finds (qs : dict) (r : Z) :
  0 <= r < PendingWork.sum_len qs ->
  exists key u qs',
    PendingWork.dequeue_random_loop qs r = Some (key, Return u, qs').
Proof.
  revert r. induction qs as [|[k0 q] rest IH]; intros r; simpl.
  - lia.
  - intros B. destruct (UpdateQueue.len q >? r) eqn:E.
    + destruct q as [|u q'].
      * rewrite Z.gtb_ltb in E. apply Z.ltb_lt in E.
        unfold UpdateQueue.len in E. simpl in E. lia.
      * simpl. eauto.
    + rewrite Z.gtb_ltb in E. apply Z.ltb_ge in E.
      destruct (IH (r - UpdateQueue.len q)) as (key & u & qs' & L); [lia|].
      rewrite L. eauto.
Qed.

(** Counting over a shifted range. *)
Lemma seq_as_map (a n : nat) :
  seq a n = map (fun i => (a + i)%nat) (seq 0 n).
Proof.
  revert a. induction n as [|n IH]; intros a; simpl; auto.
  rewrite Nat.add_0_r. f_equal.
  rewrite <- (seq_shift n 0), map_map, (IH (S a)).
  apply map_ext. intros i. lia.
Qed.

Lemma filter_map_length (f : nat -> bool) (g : nat -> nat) (l : list nat) :
  List.length (filter f (map g l))
  = List.length (filter (fun x => f (g x)) l).
Proof.
  induction l as [|x l IH]; simpl; auto.
  destruct (f (g x)); simpl; now rewrite IH.
Qed.

Lemma filter_seq_shift (f : nat -> bool) (a n : nat) :
  List.length (filter f (seq a n))
  = List.length (filter (fun i => f (a + i)%nat) (seq 0 n)).
Proof. rewrite seq_as_map. apply filter_map_length. Qed.

Lemma filter_all (f : nat -> bool) (l : list nat) :
  (forall x, In x l -> f x = true) -> List.length (filter f l) = List.length l.
Proof.
  induction l as [|x l IH]; simpl; auto.
  intros H. rewrite (H x) by auto. simpl. f_equal. auto.
Qed.

Lemma filter_none (f : nat -> bool) (l : list nat) :
  (forall x, In x l -> f x = false) -> List.length (filter f l) = 0%nat.
Proof.
  induction l as [|x l IH]; simpl; auto.
  intros H. rewrite (H x) by auto. auto.
Qed.

Lemma filter_ext_length (f g : nat -> bool) (l : list nat) :
  (forall x, In x l -> f x = g x) ->
  List.length (filter f l) = List.length (filter g l).
Proof.
  induction l as [|x l IH]; simpl; auto.
  intros H. rewrite (H x) by auto.
  destruct (g x); simpl; rewrite IH; auto.
Qed.

Lemma get_none_not_key (qs : dict) (host : string) :
  ~ In host (Dict.keys qs) -> Dict.get qs host = None.
Proof.
  induction qs as [|[k0 q] rest IH]; simpl; auto.
  intros N. destruct (String.eqb k0 host) eqn:E.
  - apply String.eqb_eq in E. tauto.
  - apply IH. tauto.
Qed.

(** Of the numbers below the sum of the lengths, as many lead to the
    queue of a host as the queue has records. *)
Lemma draws_from_count (qs : dict) (host : string) :
  NoDup (Dict.keys qs) ->
  List.length (PendingWork.draws_from qs (PendingWork.sum_len qs) host)
  = match Dict.get qs host with
    | Some q => List.length q
    | None => 0%nat
    end.
Proof.
  unfold PendingWork.draws_from.
  induction qs as [|[k0 q] rest IH]; intros ND; simpl; auto.
  inversion ND as [|? ? NI ND']; subst.
  pose proof (sum_len_nonneg _ rest) as NN.
  replace (Z.to_nat (UpdateQueue.len q + PendingWork.sum_len rest))
    with (List.length q + Z.to_nat (PendingWork.sum_len rest))%nat
    by (unfold UpdateQueue.len; lia).
  rewrite seq_app, filter_app, length_app. simpl.
  rewrite (filter_seq_shift _ (List.length q)).
  match goal with
  | |- (?A + ?B)%nat = _ =>
      assert (A = if String.eqb k0 host then List.length q else 0%nat) as EA;
      [ | assert (B = match Dict.get rest host with
                      | Some q0 => List.length q0
                      | None => 0%nat
                      end) as EB ]
  end.
  - assert (forall n, In n (seq 0 (List.length q)) ->
              match PendingWork.drawn_from ((k0, q) :: rest) (Z.of_nat n) with
              | Some key => String.eqb key host
              | None => false
              end = String.eqb k0 host) as Pick.
    { intros n I. apply in_seq in I. unfold PendingWork.drawn_from. simpl.
      replace (UpdateQueue.len q >? Z.of_nat n) with true
        by (symmetry; rewrite Z.gtb_ltb, Z.ltb_lt;
            unfold UpdateQueue.len; lia).
      destruct (UpdateQueue.dequeue q). reflexivity. }
    destruct (String.eqb k0 host).
    + rewrite filter_all, length_seq; auto.
    + rewrite filter_none; auto.
  - rewrite <- (IH ND'). apply filter_ext_length.
    intros n _. unfold PendingWork.drawn_from. simpl.
    replace (UpdateQueue.len q >? Z.of_nat (List.length q + n)) with false
      by (symmetry; rewrite Z.gtb_ltb, Z.ltb_ge;
          unfold UpdateQueue.len; lia).
    replace (Z.of_nat (List.length q + n) - UpdateQueue.len q)
      with (Z.of_nat n) by (unfold UpdateQueue.len; lia).
    destruct (PendingWork.dequeue_random_loop rest (Z.of_nat n))
      as [[[key ret] rest']|]; auto.
  - rewrite EA, EB. destruct (String.eqb k0 host) eqn:E; auto.
    apply String.eqb_eq in E. subst k0.
    rewrite (get_none_not_key _ _ NI). lia.
Qed.

(** The loop of [dequeue_random] stops at the queue whose records are
    numbered by a range that holds [r], the queues being numbered one
    after the other in the order of the dictionary, and takes the
    oldest record of that queue. *)
Lemma dequeue_random_loop_picks (qs : dict) (r : Z) :
  0 <= r < PendingWork.sum_len qs ->
  exists a host u q b,
    qs = a ++ (host, u :: q) :: b
    /\ PendingWork.sum_len a <= r
       < PendingWork.sum_len a + UpdateQueue.len (u :: q)
    /\ PendingWork.dequeue_random_loop qs r
       = Some (host, Return u, a ++ (host, q) :: b).
Proof.
  revert r. induction qs as [|[k0 q0] rest IH]; intros r; simpl.
  - lia.
  - intros B. destruct (UpdateQueue.len q0 >? r) eqn:E.
    + rewrite Z.gtb_ltb in E. apply Z.ltb_lt in E.
      destruct q0 as [|u q'].
      * unfold UpdateQueue.len in E. simpl in E. lia.
      * exists [], k0, u, q', rest. simpl. repeat split; auto; lia.
    + rewrite Z.gtb_ltb in E. apply Z.ltb_ge in E.
      destruct (IH (r - UpdateQueue.len q0))
        as (a & host & u & q & b & Q & R & L); [lia|].
      exists ((k0, q0) :: a), host, u, q, b. rewrite L, Q. simpl.
      repeat split; auto; lia.
Qed.

Lemma get_app_absent (a b : dict) (host : string) :
  ~ In host (Dict.keys a) -> Dict.get (a ++ b) host = Dict.get b host.
Proof.
  induction a as [|[k0 q0] a IH]; simpl; auto.
  intros N. destruct (String.eqb k0 host) eqn:E.
  - apply String.eqb_eq in E. tauto.
  - apply IH. tauto.
Qed.

Lemma get_app_other (a b : dict) (host host' : string)
      (q q' : UpdateQueue.t ModelUpdate) :
  host <> host' ->
  Dict.get (a ++ (host, q) :: b) host'
  = Dict.get (a ++ (host, q') :: b) host'.
Proof.
  intros N. induction a as [|[k0 q0] a IH]; simpl.
  - apply String.eqb_neq in N. now rewrite N.
  - destruct (String.eqb k0 host'); auto.
Qed.

(** What [dequeue_random] does for a number below the counter. *)
Lemma dequeue_random_picks (s : registry) (r : Z) :
  PendingWork.total_no_of_updates s = PendingWork.sum_len (PendingWork.queues s) ->
  0 <= r <= PendingWork.total_no_of_updates s - 1 ->
  exists a host u q b,
    PendingWork.queues s = a ++ (host, u :: q) :: b
    /\ PendingWork.sum_len a <= r
       < PendingWork.sum_len a + UpdateQueue.len (u :: q)
    /\ PendingWork.dequeue_random_loop (PendingWork.queues s) r
       = Some (host, Return u, a ++ (host, q) :: b)
    /\ PendingWork.dequeue_random r s
       = (Return u,
          PendingWork._update_min_and_max
            (PendingWork.set_total_no_of_updates
               (PendingWork.total_no_of_updates s - 1)
               (PendingWork.set_queues (a ++ (host, q) :: b) s))).
Proof.
  intros I B.
  destruct (dequeue_random_loop_picks (PendingWork.queues s) r)
    as (a & host & u & q & b & Q & R & L); [lia|].
  exists a, host, u, q, b. repeat split; auto; try lia.
  unfold PendingWork.dequeue_random.
  replace (PendingWork.total_no_of_updates s =? 0) with false
    by (symmetry; apply Z.eqb_neq; lia).
  rewrite L. reflexivity.
Qed.

(** With distinct hosts, the queue that is one record shorter after
    [dequeue_random] is the one its loop stopped at. *)
Lemma takes_from_drawn (s : registry) (r : Z) (host : string) :
  PendingWork.total_no_of_updates s = PendingWork.sum_len (PendingWork.queues s) ->
  NoDup (Dict.keys (PendingWork.queues s)) ->
  0 <= r <= PendingWork.total_no_of_updates s - 1 ->
  PendingWork.takes_from r s host
  = match PendingWork.drawn_from (PendingWork.queues s) r with
    | Some key => String.eqb key host
    | None => false
    end.
Proof.
  intros I ND B.
  destruct (dequeue_random_picks s r I B)
    as (a & key & u & q & b & Q & _ & L & D).
  unfold PendingWork.takes_from, PendingWork.drawn_from.
  rewrite D, L. unfold PendingWork.queue_of. simpl. rewrite Q.
  unfold Dict.keys in ND. rewrite Q, map_app in ND. simpl in ND.
  apply NoDup_remove_2 in ND.
  assert (~ In key (Dict.keys a)) as NA
    by (intros X; apply ND, in_or_app; left; exact X).
  destruct (String.eqb key host) eqn:E.
  - apply String.eqb_eq in E. subst host.
    rewrite !get_app_absent by exact NA. simpl. rewrite String.eqb_refl.
    rewrite len_cons. apply Z.eqb_eq. lia.
  - apply String.eqb_neq in E.
    pose proof (get_app_other a b key host q (u :: q) E) as X.
    unfold UpdateQueue.t in X |- *. rewrite X.
    apply Z.eqb_neq. lia.
Qed.

Lemma filter_map_len (A B : Type) (f : B -> bool) (g : A -> B) (l : list A) :
  List.length (filter f (map g l))
  = List.length (filter (fun x => f (g x)) l).
Proof.
  induction l as [|x l IH]; simpl; auto.
  destruct (f (g x)); simpl; now rewrite IH.
Qed.

(** With something queued [random.randint] returns one of the numbers
    from 0 to the counter minus one. *)
Lemma randint_values_positive (s : registry) :
  0 < PendingWork.total_no_of_updates s ->
  PendingWork.randint_values s
  = map (fun n => 0 + Z.of_nat n)
        (seq 0 (Z.to_nat (PendingWork.total_no_of_updates s))).
Proof.
  intros P. unfold PendingWork.randint_values, PendingWork.randint_bounds.
  do 2 f_equal. lia.
Qed.

(** C5.  In a state whose counter is the sum of the queue lengths:
    when the counter is positive, [dequeue_random] returns a record
    for each number [r] from 0 to the counter minus one, so it never
    raises [ExtraFatal]: with the records numbered queue after queue
    in the order of the dictionary, it returns the oldest record of the
    queue that holds record [r], and leaves that queue without this
    record, the other queues as they were and the counter one lower;
    the numbers [random.randint] returns with equal probability are
    these, as many as the counter says, and among them as many make
    [dequeue_random] take its record from a given queue as the queue
    has records; when the counter is zero [dequeue_random] raises
    [EmptyQueueError] and changes nothing. *)
Theorem C5_dequeue_random_finds_a_record (s : registry) :
  PendingWork.total_no_of_updates s = PendingWork.sum_len (PendingWork.queues s) ->
  (0 < PendingWork.total_no_of_updates s ->
     forall r, 0 <= r <= PendingWork.total_no_of_updates s - 1 ->
       exists a host u q b,
         PendingWork.queues s = a ++ (host, u :: q) :: b
         /\ PendingWork.sum_len a <= r
            < PendingWork.sum_len a + UpdateQueue.len (u :: q)
         /\ PendingWork.dequeue_random r s
            = (Return u,
               PendingWork._update_min_and_max
                 (PendingWork.set_total_no_of_updates
                    (PendingWork.total_no_of_updates s - 1)
                    (PendingWork.set_queues (a ++ (host, q) :: b) s))))
  /\ (0 < PendingWork.total_no_of_updates s ->
      (forall r, In r (PendingWork.randint_values s)
                 <-> 0 <= r <= PendingWork.total_no_of_updates s - 1)
      /\ Z.of_nat (List.length (PendingWork.randint_values s))
         = PendingWork.total_no_of_updates s
      /\ (NoDup (Dict.keys (PendingWork.queues s)) ->
          forall host q, Dict.get (PendingWork.queues s) host = Some q ->
            Z.of_nat (List.length (PendingWork.random_draws_from s host))
            = UpdateQueue.len q))
  /\ (PendingWork.total_no_of_updates s = 0 ->
      forall r, PendingWork.dequeue_random r s = (Raise EmptyQueueError, s)).
Proof.
  intros I. split; [|split].
  - intros P r B.
    destruct (dequeue_random_picks s r I B)
      as (a & host & u & q & b & Q & R & _ & D).
    exists a, host, u, q, b. auto.
  - intros P. rewrite randint_values_positive by exact P.
    split; [|split].
    + intros r. rewrite in_map_iff. split.
      * intros (n & <- & N). apply in_seq in N. lia.
      * intros B. exists (Z.to_nat r). split; [lia|]. apply in_seq. lia.
    + rewrite length_map, length_seq. lia.
    + intros ND host q G. unfold PendingWork.random_draws_from.
      rewrite randint_values_positive by exact P.
      rewrite filter_map_len.
      rewrite (filter_ext_length _
                 (fun n => match PendingWork.drawn_from (PendingWork.queues s)
                                   (Z.of_nat n) with
                           | Some key => String.eqb key host
                           | None => false
                           end)).
      * pose proof (draws_from_count (PendingWork.queues s) host ND) as C.
        unfold PendingWork.draws_from in C. rewrite <- I in C.
        rewrite C, G. reflexivity.
      * intros n N. apply in_seq in N.
        replace (0 + Z.of_nat n) with (Z.of_nat n) by lia.
        apply takes_from_drawn; auto. lia.
  - intros Z0 r. unfold PendingWork.dequeue_random. now rewrite Z0.
Qed.

End RandomDequeueFacts.

Section BarrierFacts.

Variable ModelUpdate : Type.

Abbreviation registry := (PendingWork.t ModelUpdate).
Abbreviation dict := (Dict.t (UpdateQueue.t ModelUpdate)).

Lemma str_len_nonneg (key : string) : 0 <= str_len key.
Proof. unfold str_len. lia. Qed.

Lemma min_step_nonneg (lo : option Z) (key : string) (m : Z) :
  (forall v, lo = Some v -> 0 <= v) ->
  PendingWork.min_step lo key = Some m -> 0 <= m.
Proof.
  intros H. unfold PendingWork.min_step.
  pose proof (str_len_nonneg key).
  destruct lo as [v|].
  - specialize (H v eq_refl).
    destruct ((str_len key <? v) && negb (v =? 1)); intros [= <-]; lia.
  - destruct ((str_len key <? str_len key) && negb (str_len key =? 1));
      intros [= <-]; lia.
Qed.

Lemma min_fold_nonneg (keys : list string) (lo : option Z) (m : Z) :
  (forall v, lo = Some v -> 0 <= v) ->
  fold_left PendingWork.min_step keys lo = Some m -> 0 <= m.
Proof.
  revert lo. induction keys as [|key rest IH]; intros lo H; simpl.
  - intros E. now apply H.
  - apply IH. intros v E. eapply min_step_nonneg; eauto.
Qed.

Lemma update_min_nonneg (s : registry) (m : Z) :
  PendingWork.min_queue_len (PendingWork._update_min_and_max s) = Some m ->
  0 <= m.
Proof.
  simpl. apply min_fold_nonneg. discriminate.
Qed.

(** Fields that [enqueue_locked], [dequeue] and [dequeue_random] keep. *)
Lemma enqueue_locked_fields (u : ModelUpdate) (host : string) (s : registry) :
  let s' := snd (PendingWork.enqueue_locked u host s) in
  PendingWork.frozen s' = PendingWork.frozen s
  /\ PendingWork.k s' = PendingWork.k s
  /\ PendingWork.leader s' = PendingWork.leader s
  /\ ((forall m, PendingWork.min_queue_len s = Some m -> 0 <= m) ->
      forall m, PendingWork.min_queue_len s' = Some m -> 0 <= m).
Proof.
  unfold PendingWork.enqueue_locked.
  destruct (Dict.get (PendingWork.queues s) host) as [q|].
  - destruct (PendingWork.pushes_back s q); simpl; repeat split; auto.
    intros _ m. apply min_fold_nonneg. discriminate.
  - simpl. repeat split. intros _ m. apply min_fold_nonneg. discriminate.
Qed.

Lemma dequeue_fields (host : string) (s : registry) :
  let s' := snd (PendingWork.dequeue host s) in
  PendingWork.frozen s' = PendingWork.frozen s
  /\ PendingWork.k s' = PendingWork.k s
  /\ PendingWork.leader s' = PendingWork.leader s
  /\ ((forall m, PendingWork.min_queue_len s = Some m -> 0 <= m) ->
      forall m, PendingWork.min_queue_len s' = Some m -> 0 <= m).
Proof.
  unfold PendingWork.dequeue.
  destruct (PendingWork.total_no_of_updates s =? 0); simpl; auto.
  destruct (Dict.get (PendingWork.queues s) host) as [q|].
  - destruct (UpdateQueue.len q >? 0); simpl; auto.
    destruct q as [|u q']; simpl; repeat split; auto.
    intros _ m. apply min_fold_nonneg. discriminate.
  - simpl. repeat split. intros _ m. apply min_fold_nonneg. discriminate.
Qed.

Lemma dequeue_random_fields (r : Z) (s : registry) :
  let s' := snd (PendingWork.dequeue_random r s) in
  PendingWork.frozen s' = PendingWork.frozen s
  /\ PendingWork.k s' = PendingWork.k s
  /\ PendingWork.leader s' = PendingWork.leader s
  /\ ((forall m, PendingWork.min_queue_len s = Some m -> 0 <= m) ->
      forall m, PendingWork.min_queue_len s' = Some m -> 0 <= m).
Proof.
  unfold PendingWork.dequeue_random.
  destruct (PendingWork.total_no_of_updates s =? 0); simpl; auto.
  destruct (PendingWork.dequeue_random_loop (PendingWork.queues s) r)
    as [[[key [u|e]] qs']|]; simpl; repeat split; auto.
  intros _ m. apply min_fold_nonneg. discriminate.
Qed.

Lemma dequeue_every_queue_fields (s : registry) :
  let s' := PendingWork.dequeue_every_queue s in
  PendingWork.frozen s' = PendingWork.frozen s
  /\ PendingWork.k s' = PendingWork.k s
  /\ PendingWork.leader s' = PendingWork.leader s
  /\ PendingWork.min_queue_len s' = PendingWork.min_queue_len s
  /\ PendingWork.sum_len (PendingWork.queues s') = 0.
Proof.
  unfold PendingWork.dequeue_every_queue.
  pose proof (dequeue_every_queue_loop_spec _ (PendingWork.queues s)
                (PendingWork.total_no_of_updates s)) as (_ & B & _).
  destruct (PendingWork.dequeue_every_queue_loop (PendingWork.queues s)
              (PendingWork.total_no_of_updates s)) as [qs total].
  simpl in *. auto.
Qed.

(** With nothing queued a dequeue changes nothing. *)
Lemma dequeue_nothing (host : string) (s : registry) :
  PendingWork.total_no_of_updates s = 0 ->
  snd (PendingWork.dequeue host s) = s.
Proof. intros Z0. unfold PendingWork.dequeue. now rewrite Z0. Qed.

Lemma dequeue_random_nothing (r : Z) (s : registry) :
  PendingWork.total_no_of_updates s = 0 ->
  snd (PendingWork.dequeue_random r s) = s.
Proof. intros Z0. unfold PendingWork.dequeue_random. now rewrite Z0. Qed.

Lemma barrier_ok_setup (ratio : Z) (nd : PendingWork.Node) (me : string)
      (others : list string) (ldr : string) :
  PendingWork.barrier_ok ratio ldr
    (PendingWork.setup me others ldr (PendingWork.init ModelUpdate ratio nd)).
Proof.
  split; [apply counter_ok_setup|].
  simpl. repeat split; try discriminate.
Qed.

Lemma barrier_ok_after (ratio : Z) (ldr : string)
      (c : PendingWork.call ModelUpdate) (s : registry) :
  PendingWork.barrier_ok ratio ldr s ->
  PendingWork.barrier_ok ratio ldr (PendingWork.after c s).
Proof.
  intros (I & E & M & K & L).
  split; [now apply counter_ok_after|].
  destruct c as [u host|host|r| |]; simpl.
  - unfold PendingWork.enqueue.
    destruct (PendingWork.frozen s) eqn:F.
    + destruct (String.eqb host (PendingWork.leader s)); simpl; auto.
      destruct (enqueue_locked_fields u host (PendingWork.set_frozen false s))
        as (A & B & C & D).
      simpl in A, B, C, D. rewrite A, B, C.
      repeat split; auto; discriminate.
    + destruct (enqueue_locked_fields u host s) as (A & B & C & D).
      rewrite A, B, C, F. repeat split; auto; discriminate.
  - destruct (dequeue_fields host s) as (A & B & C & D).
    rewrite A, B, C. repeat split; auto.
    intros F. rewrite dequeue_nothing; auto.
    unfold PendingWork.counter_ok in I. rewrite I. auto.
  - destruct (dequeue_random_fields r s) as (A & B & C & D).
    rewrite A, B, C. repeat split; auto.
    intros F. rewrite dequeue_random_nothing; auto.
    unfold PendingWork.counter_ok in I. rewrite I. auto.
  - destruct (dequeue_every_queue_fields s) as (A & B & C & D & Z0).
    rewrite B, C, D. auto.
  - unfold PendingWork.clear_all.
    match goal with
    | |- context [PendingWork.dequeue_every_queue ?x] =>
        destruct (dequeue_every_queue_fields x) as (A & B & C & D & Z0)
    end.
    rewrite B, C, D. simpl. auto.
Qed.

Lemma reachable_barrier_ok (ratio : Z) (nd : PendingWork.Node) (me : string)
      (others : list string) (ldr : string) (s : registry) :
  PendingWork.reachable ratio nd me others ldr s ->
  PendingWork.barrier_ok ratio ldr s.
Proof.
  induction 1.
  - apply barrier_ok_setup.
  - now apply barrier_ok_after.
Qed.

(** In a dictionary of empty queues every queue is empty. *)
Lemma get_empty (qs : dict) (host : string) (q : UpdateQueue.t ModelUpdate) :
  PendingWork.sum_len qs = 0 -> Dict.get qs host = Some q -> q = [].
Proof.
  induction qs as [|[k0 q0] rest IH]; simpl; [discriminate|].
  intros Z0. pose proof (len_nonneg _ q0). pose proof (sum_len_nonneg _ rest).
  destruct (String.eqb k0 host).
  - intros [= <-]. destruct q0; auto.
    rewrite len_cons in *. pose proof (len_nonneg _ q0). lia.
  - apply IH. lia.
Qed.

Lemma not_frozen_admitted_normally (u : ModelUpdate) (host : string)
      (s : registry) :
  PendingWork.frozen s = false -> PendingWork.admitted_normally u host s.
Proof.
  intros F. unfold PendingWork.admitted_normally, PendingWork.enqueue,
              PendingWork.queue_of. rewrite F.
  destruct (Dict.get (PendingWork.queues s) host) as [q|] eqn:G.
  - destruct (PendingWork.pushes_back s q) eqn:P.
    + unfold PendingWork.enqueue_locked. now rewrite G, P.
    + destruct (enqueue_locked_existing _ u host s q G P) as (A & B & _).
      rewrite B. auto.
  - destruct (enqueue_locked_new _ u host s G) as (A & B & _).
    rewrite B. auto.
Qed.

(** C4.  In every state a registry with a ratio that is not negative
    reaches: [clear_all] leaves the counter at zero and [frozen] set;
    while [frozen] is set an enqueue from a host other than the leader
    returns and changes nothing; an enqueue from the leader then
    returns with the record in the queue of the leader, the counter
    one higher and [frozen] cleared, and the enqueues of the other
    hosts that follow go through the admission rule again. *)
Theorem C4_barrier_until_leader_enqueues
        (ratio : Z) (nd : PendingWork.Node) (me : string)
        (others : list string) (ldr : string) (s : registry) :
  0 <= ratio ->
  PendingWork.reachable ratio nd me others ldr s ->
  (PendingWork.total_no_of_updates (PendingWork.clear_all s) = 0
   /\ PendingWork.frozen (PendingWork.clear_all s) = true)
  /\ (PendingWork.frozen s = true ->
      forall u host, host <> PendingWork.leader s ->
        PendingWork.enqueue u host s = (Return tt, s))
  /\ (PendingWork.frozen s = true ->
      forall u,
        let s' := snd (PendingWork.enqueue u (PendingWork.leader s) s) in
        fst (PendingWork.enqueue u (PendingWork.leader s) s) = Return tt
        /\ PendingWork.queue_of s' (PendingWork.leader s)
           = PendingWork.queue_of s (PendingWork.leader s) ++ [u]
        /\ PendingWork.total_no_of_updates s'
           = PendingWork.total_no_of_updates s + 1
        /\ PendingWork.frozen s' = false
        /\ forall u' host, host <> PendingWork.leader s ->
             PendingWork.admitted_normally u' host s').
Proof.
  intros NN R.
  pose proof (reachable_barrier_ok _ _ _ _ _ _ R) as B.
  split; [|split].
  - pose proof (barrier_ok_after ratio ldr (PendingWork.ClearAll) s B)
      as (I & E & _).
    simpl in I, E. unfold PendingWork.counter_ok in I.
    assert (PendingWork.frozen (PendingWork.clear_all s) = true) as F.
    { unfold PendingWork.clear_all.
      match goal with
      | |- context [PendingWork.dequeue_every_queue ?x] =>
          destruct (dequeue_every_queue_fields x) as (A & _)
      end.
      rewrite A. reflexivity. }
    split; auto. rewrite I. auto.
  - intros F u host N. unfold PendingWork.enqueue. rewrite F.
    apply String.eqb_neq in N. now rewrite N.
  - intros F u. destruct B as (I & E & M & K & L).
    specialize (E F).
    assert (exists s', PendingWork.enqueue u (PendingWork.leader s) s
                       = (Return tt, s')
                       /\ PendingWork.queue_of s' (PendingWork.leader s)
                          = PendingWork.queue_of s (PendingWork.leader s)
                            ++ [u]
                       /\ PendingWork.total_no_of_updates s'
                          = PendingWork.total_no_of_updates s + 1
                       /\ PendingWork.frozen s' = false) as (s' & Q & A).
    { unfold PendingWork.enqueue. rewrite F, String.eqb_refl.
      set (s1 := PendingWork.set_frozen false s).
      unfold PendingWork.queue_of.
      destruct (Dict.get (PendingWork.queues s) (PendingWork.leader s))
        as [q|] eqn:G.
      - assert (q = []) as -> by (eapply get_empty; eauto).
        assert (PendingWork.pushes_back s1 [] = false) as P.
        { unfold PendingWork.pushes_back. simpl.
          destruct (PendingWork.min_queue_len s) as [m|] eqn:Mq; auto.
          specialize (M m eq_refl). rewrite Z.gtb_ltb. apply Z.ltb_ge.
          unfold UpdateQueue.len. simpl. nia. }
        destruct (enqueue_locked_existing _ u (PendingWork.leader s) s1 []
                    G P) as (A1 & A2 & _ & A4 & A5).
        exists (snd (PendingWork.enqueue_locked u (PendingWork.leader s) s1)).
        rewrite A2. repeat split; auto.
        destruct (PendingWork.enqueue_locked u (PendingWork.leader s) s1)
          as [[[]|e] s2]; simpl in *; congruence.
      - destruct (enqueue_locked_new _ u (PendingWork.leader s) s1 G)
          as (A1 & A2 & _ & A4 & A5).
        exists (snd (PendingWork.enqueue_locked u (PendingWork.leader s) s1)).
        rewrite A2. repeat split; auto.
        destruct (PendingWork.enqueue_locked u (PendingWork.leader s) s1)
          as [[[]|e] s2]; simpl in *; congruence. }
    rewrite Q. simpl. destruct A as (A1 & A2 & A3).
    repeat split; auto.
    intros u' host _. now apply not_frozen_admitted_normally.
Qed.

End BarrierFacts.

(** * Properties of the solver *)

Section WindowFacts.

Lemma firstn_app_firstn (A : Type) (a b : list A) (n m : nat) :
  (n <= m)%nat -> firstn n (a ++ firstn m b) = firstn n (a ++ b).
Proof.
  revert n. induction a as [|x a IH]; intros n L; simpl.
  - rewrite firstn_firstn. now rewrite Nat.min_l.
  - destruct n as [|n]; simpl; auto.
    f_equal. apply IH. lia.
Qed.

Lemma nth_error_firstn_below (A : Type) (l : list A) (n i : nat) :
  (i < n)%nat -> nth_error (firstn n l) i = nth_error l i.
Proof.
  revert n i. induction l as [|x l IH]; intros n i L.
  - now rewrite firstn_nil.
  - destruct n as [|n]; [lia|]. destruct i as [|i]; simpl; auto.
    apply IH. lia.
Qed.

(** The window holds the latest losses, the newest first, and what is
    left of its first content behind them. *)
Lemma record_losses_items (losses : list float) (d : Solver.Deque) :
  (List.length (Solver.items d) <= Solver.maxlen d)%nat ->
  Solver.items (Solver.record_losses losses d)
  = firstn (Solver.maxlen d) (rev losses ++ Solver.items d)
  /\ Solver.maxlen (Solver.record_losses losses d) = Solver.maxlen d.
Proof.
  revert d. induction losses as [|loss rest IH]; intros d L.
  - simpl. split; auto. now rewrite firstn_all2.
  - change (Solver.record_losses (loss :: rest) d)
      with (Solver.record_losses rest (Solver.appendleft loss d)).
    destruct (IH (Solver.appendleft loss d)) as [A B].
    { simpl. apply firstn_le_length. }
    rewrite A, B. simpl.
    split; auto.
    rewrite firstn_app_firstn by lia.
    now rewrite <- app_assoc.
Qed.

(** Slot [i] of the window of a solver that recorded [losses]. *)
Lemma window_slot (losses : list float) (i : nat) :
  (i < 50)%nat ->
  Solver.getitem (Solver.record_losses losses Solver.initial_loss_list) i
  = Return (Solver.loss_back losses i).
Proof.
  intros L. unfold Solver.getitem.
  destruct (record_losses_items losses Solver.initial_loss_list) as [A _].
  { simpl. lia. }
  rewrite A.
  change (Solver.maxlen Solver.initial_loss_list) with 50%nat.
  change (Solver.items Solver.initial_loss_list) with (repeat 0%float 50).
  rewrite nth_error_firstn_below by exact L.
  unfold Solver.loss_back.
  destruct (Nat.lt_ge_cases i (List.length (rev losses))) as [Lt|Ge].
  - rewrite nth_error_app1 by exact Lt.
    now rewrite (nth_error_nth' _ 0%float Lt).
  - rewrite nth_error_app2 by exact Ge.
    rewrite nth_error_repeat by lia.
    now rewrite nth_overflow by exact Ge.
Qed.

(** [convergent] in terms of the losses recorded. *)
Lemma convergent_recorded (losses : list float) :
  Solver.convergent (Solver.record_losses losses Solver.initial_loss_list)
  = if Solver.float_ne (Solver.loss_back losses 0) 0%float
    then if Solver.float_ne (Solver.loss_back losses 49) 0%float
         then Return
                (PrimFloat.ltb
                   (PrimFloat.abs
                      (PrimFloat.div
                         (PrimFloat.sub (Solver.loss_back losses 0)
                                        (Solver.loss_back losses 49))
                         (Solver.loss_back losses 49)))
                   Solver.two_percent)
         else Return false
    else Return false.
Proof.
  unfold Solver.convergent.
  rewrite (window_slot losses 0), (window_slot losses 49) by lia.
  reflexivity.
Qed.

(** C6, amended.  With [newest] the loss recorded last and [oldest]
    the loss recorded 49 minibatches before it (zero when fewer losses
    were recorded), [convergent] returns true exactly when both are
    not zero and [|(newest - oldest) / oldest| < 0.02]: the change is
    taken relative to the oldest loss.  Otherwise it returns false. *)
Theorem C6_converged_when_change_is_small_relative_to_oldest
        (losses : list float) :
  exists b : bool,
    Solver.convergent (Solver.record_losses losses Solver.initial_loss_list)
    = Return b
    /\ (b = true <->
        Solver.float_ne (Solver.loss_back losses 0) 0%float = true
        /\ Solver.float_ne (Solver.loss_back losses 49) 0%float = true
        /\ PrimFloat.ltb
             (PrimFloat.abs
                (PrimFloat.div
                   (PrimFloat.sub (Solver.loss_back losses 0)
                                  (Solver.loss_back losses 49))
                   (Solver.loss_back losses 49)))
             Solver.two_percent = true).
Proof.
  rewrite convergent_recorded.
  destruct (Solver.float_ne (Solver.loss_back losses 0) 0%float);
    [destruct (Solver.float_ne (Solver.loss_back losses 49) 0%float)|];
    eexists; (split; [reflexivity|]); intuition congruence.
Qed.

(** C6 as it is worded fails: after fifty losses that go from
    1.02001953125 down to 1, the change is under 2 % of the oldest
    loss, so the code reports convergence, and above 2 % of the newest
    one, so the worded predicate does not hold. *)
Lemma C6_change_relative_to_newest_fails :
  let losses := 1.02001953125%float :: repeat 1%float 49 in
  Solver.convergent (Solver.record_losses losses Solver.initial_loss_list)
  = Return true
  /\ Solver.spec_converged (Solver.loss_back losses 49)
                           (Solver.loss_back losses 0) = false.
Proof. vm_compute. split; reflexivity. Qed.

(** C10.  While fewer than fifty losses have been recorded since the
    solver was built, slot 49 of the window is still the zero it was
    created with, and [convergent] returns false. *)
Theorem C10_not_converged_before_fifty_losses (losses : list float) :
  (List.length losses < 50)%nat ->
  Solver.getitem (Solver.record_losses losses Solver.initial_loss_list) 49
  = Return 0%float
  /\ Solver.convergent (Solver.record_losses losses Solver.initial_loss_list)
     = Return false.
Proof.
  intros L.
  assert (Solver.loss_back losses 49 = 0%float) as Z49.
  { unfold Solver.loss_back. apply nth_overflow. rewrite length_rev. lia. }
  split.
  - rewrite window_slot by lia. now rewrite Z49.
  - rewrite convergent_recorded, Z49.
    destruct (Solver.float_ne (Solver.loss_back losses 0) 0%float);
      reflexivity.
Qed.

End WindowFacts.

Section AggregationFacts.

Variables Tensor Alpha : Type.
Variable tensor_scale : Alpha -> Tensor -> Tensor.
Variable tensor_add : Tensor -> Tensor -> Tensor.
Variable tensor_zero : Tensor.
Variables Metadata FairnessState Flattened : Type.
Variable metadata_keys : Metadata -> list string.
Variable flatten_metadata :
  FairnessState -> list Metadata -> list string -> Flattened.
Variable get_alphas : FairnessState -> Flattened -> list Alpha.
Variable update_internal_state_after_aggregation :
  FairnessState -> list Alpha -> Flattened -> list string -> FairnessState.
Variable ModelUpdate : Type.
Variable empty_model_and_metadata_from :
  string -> PendingWork.t ModelUpdate ->
  result (Solver.Drained Tensor Metadata) * PendingWork.t ModelUpdate.

Abbreviation solver := (Solver.t Tensor Metadata FairnessState ModelUpdate).
Abbreviation collect :=
  (Solver.collect metadata_keys empty_model_and_metadata_from).
Abbreviation aggregate :=
  (Solver.aggregate_received_updates
     tensor_scale tensor_add tensor_zero metadata_keys flatten_metadata
     get_alphas update_internal_state_after_aggregation
     empty_model_and_metadata_from).

(** Collecting the contributions writes neither the parameters nor the
    fairness state. *)
Lemma collect_keeps_parameters (s : solver) :
  Solver.parameter_pointers (snd (collect s)) = Solver.parameter_pointers s
  /\ Solver.fairness_state (snd (collect s)) = Solver.fairness_state s.
Proof.
  unfold Solver.collect.
  destruct (Solver.drain_hosts empty_model_and_metadata_from
              (PendingWork.other_hosts (Solver.pending_work_queues s))
              (Solver.pending_work_queues s) ([], [], []))
    as [[acc|e] pw]; simpl; auto.
  destruct (Solver.add_own metadata_keys _ acc) as [[[wl ml] ids]|e];
    simpl; auto.
Qed.

Lemma counts_differ_iff (alphas : list Alpha)
      (weight_list : list (Solver.Weights Tensor))
      (metadata_list : list Metadata) :
  Solver.counts_differ alphas weight_list metadata_list = true
  <-> (List.length alphas <> List.length weight_list
       \/ List.length weight_list <> List.length metadata_list).
Proof.
  unfold Solver.counts_differ.
  rewrite orb_true_iff, !negb_true_iff, !Nat.eqb_neq. tauto.
Qed.

(** The update loop can only fail on a missing index. *)
Lemma weighted_terms_raise (idx : string)
      (pairs : list (Alpha * Solver.Weights Tensor)) (e : exn) :
  Solver.weighted_terms tensor_scale idx pairs = Raise e -> e = KeyError.
Proof.
  induction pairs as [|[alpha weight] rest IH]; simpl; [discriminate|].
  destruct (Dict.get weight idx); [|now intros [= <-]].
  destruct (Solver.weighted_terms tensor_scale idx rest) as [terms|e'];
    [discriminate|].
  intros [= <-]. now apply IH.
Qed.

Lemma apply_updates_raise (idxs : list string) (params : Dict.t Tensor)
      (pairs : list (Alpha * Solver.Weights Tensor)) (e : exn) :
  fst (Solver.apply_updates tensor_scale tensor_add tensor_zero
                            idxs params pairs) = Raise e ->
  e = KeyError.
Proof.
  revert params. induction idxs as [|idx rest IH]; intros params; simpl;
    [discriminate|].
  destruct (Solver.weighted_terms tensor_scale idx pairs) as [terms|e'] eqn:W.
  - destruct (Dict.get params idx); [apply IH | now intros [= <-]].
  - simpl. intros [= <-]. eapply weighted_terms_raise; eauto.
Qed.

(** C8.  When the alphas, the collected weights and the collected
    metadata of a round are not equally many, the round raises
    [ValueError]; the parameters and the fairness state are then those
    the round started with.  A round whose counts agree does not raise
    [ValueError]. *)
Theorem C8_count_mismatch_raises_before_any_update
        (s s1 : solver) (weight_list : list (Solver.Weights Tensor))
        (metadata_list : list Metadata) (host_id_list : list string) :
  collect s = (Return (weight_list, metadata_list, host_id_list), s1) ->
  let alphas :=
    Solver.round_alphas flatten_metadata get_alphas s1 metadata_list
                        host_id_list in
  ((List.length alphas <> List.length weight_list
    \/ List.length weight_list <> List.length metadata_list) ->
     aggregate s = (Raise ValueError, s1)
     /\ Solver.parameter_pointers s1 = Solver.parameter_pointers s
     /\ Solver.fairness_state s1 = Solver.fairness_state s)
  /\ (fst (aggregate s) = Raise ValueError ->
      List.length alphas <> List.length weight_list
      \/ List.length weight_list <> List.length metadata_list).
Proof.
  intros C alphas.
  pose proof (collect_keeps_parameters s) as [P F]. rewrite C in P, F.
  simpl in P, F.
  unfold Solver.aggregate_received_updates. rewrite C.
  fold alphas. unfold Solver.round_alphas in alphas. fold alphas.
  destruct (Solver.counts_differ alphas weight_list metadata_list) eqn:D.
  - apply counts_differ_iff in D. split; auto.
  - split.
    + intros M. apply counts_differ_iff in M. congruence.
    + destruct (Solver.apply_updates tensor_scale tensor_add tensor_zero
                  (Dict.keys (Solver.parameter_pointers s1))
                  (Solver.parameter_pointers s1)
                  (combine alphas weight_list)) as [r params] eqn:U.
      simpl. intros E.
      pose proof (apply_updates_raise
                    (Dict.keys (Solver.parameter_pointers s1))
                    (Solver.parameter_pointers s1)
                    (combine alphas weight_list) ValueError) as K.
      rewrite U in K. specialize (K E). discriminate.
Qed.

End AggregationFacts.

(** * The properties at concrete inputs *)

(** Scenario A of section 8: three enqueues give a counter of 3, three
    random dequeues bring it back to 0, and a fourth one raises. *)
Example scenario_A_three_queued :
  PendingWork.total_no_of_updates
    (PendingWork.after_all
       [PendingWork.Enqueue "u1" "n1"; PendingWork.Enqueue "u2" "n1";
        PendingWork.Enqueue "u3" "n0"] (Scenario.fresh 100)) = 3.
Proof. vm_compute. reflexivity. Qed.

Example scenario_A_drained :
  let s := PendingWork.after_all
             [PendingWork.Enqueue "u1" "n1"; PendingWork.Enqueue "u2" "n1";
              PendingWork.Enqueue "u3" "n0"; PendingWork.DequeueRandom 2;
              PendingWork.DequeueRandom 0; PendingWork.DequeueRandom 0]
             (Scenario.fresh 100) in
  PendingWork.total_no_of_updates s = 0
  /\ PendingWork.dequeue_random 0 s = (Raise EmptyQueueError, s).
Proof. vm_compute. split; reflexivity. Qed.

(** The three numbers [randint] can return with ["u1"; "u2"] queued for
    ["n1"] and ["u3"] for ["n0"]: the dictionary starts with ["n0"]. *)
Example scenario_A_draws :
  let s := PendingWork.after_all
             [PendingWork.Enqueue "u1" "n1"; PendingWork.Enqueue "u2" "n1";
              PendingWork.Enqueue "u3" "n0"] (Scenario.fresh 100) in
  fst (PendingWork.dequeue_random 0 s) = Return "u3"
  /\ fst (PendingWork.dequeue_random 1 s) = Return "u1"
  /\ fst (PendingWork.dequeue_random 2 s) = Return "u1"
  /\ PendingWork.draws_from (PendingWork.queues s) 3 "n1" = [1%nat; 2%nat]
  /\ PendingWork.randint_values s = [0; 1; 2]
  /\ PendingWork.random_draws_from s "n1" = [1; 2]
  /\ PendingWork.random_draws_from s "n0" = [0].
Proof. vm_compute. repeat split. Qed.

(** Scenario B: two enqueues, then every queue is emptied. *)
Example scenario_B_cleared :
  PendingWork.total_no_of_updates
    (PendingWork.after_all
       [PendingWork.Enqueue "u1" "n1"; PendingWork.Enqueue "u2" "n1";
        PendingWork.DequeueEveryQueue] (Scenario.fresh 100)) = 0.
Proof. vm_compute. reflexivity. Qed.

(** The barrier: after [clear_all] an update of ["n1"] is dropped, one of
    the leader ["n0"] is queued, and ["n1"] is served again. *)
Example barrier_round :
  let s := PendingWork.after_all
             [PendingWork.Enqueue "u1" "n1"; PendingWork.ClearAll;
              PendingWork.Enqueue "u2" "n1"] (Scenario.fresh 100) in
  let s' := PendingWork.after_all
              [PendingWork.Enqueue "u3" "n0"; PendingWork.Enqueue "u4" "n1"]
              s in
  PendingWork.total_no_of_updates s = 0
  /\ PendingWork.frozen s = true
  /\ PendingWork.frozen s' = false
  /\ PendingWork.queues s' = [("n0", ["u3"]); ("n1", ["u4"]); ("n2", [])].
Proof. vm_compute. repeat split. Qed.

(** Scenario C as the code runs it: ratio 2, one record queued for
    ["n0"], three for ["n1"].  The cached minimum is 2, the length of a
    host name, so a fourth record for ["n1"] is taken: 3 is not above
    2 * 2. *)
Example scenario_C_as_coded :
  let s := PendingWork.after_all
             [PendingWork.Enqueue "u0" "n0"; PendingWork.Enqueue "u1" "n1";
              PendingWork.Enqueue "u2" "n1"; PendingWork.Enqueue "u3" "n1"]
             (PendingWork.setup "n0" ["n1"] "n0"
                (PendingWork.init string 2 Scenario.node0)) in
  PendingWork.queues s = [("n0", ["u0"]); ("n1", ["u1"; "u2"; "u3"])]
  /\ PendingWork.min_queue_len s = Some 2
  /\ fst (PendingWork.enqueue "u4" "n1" s) = Return tt.
Proof. vm_compute. repeat split. Qed.

(** C3.  After [setup("n0", ["n1", "n2"], "n0")] and
    [enqueue("u1", "n1")] the queues of ["n0"] and ["n2"] are empty, so
    the least queue length is 0, but [min_queue_len] is 2, the number of
    characters of a host name: the loop of [_update_min_and_max] runs
    over the keys of the dictionary. *)
Theorem C3_min_queue_len_measures_host_names :
  PendingWork.min_queue_len (Scenario.one_queued 2) = Some 2
  /\ PendingWork.least_len (PendingWork.queues (Scenario.one_queued 2)) = Some 0
  /\ str_len "n0" = 2.
Proof. vm_compute. repeat split. Qed.

(** C1 after one enqueue to the registry of scenario A. *)
Lemma C1_counter_witness :
  PendingWork.reachable 2 Scenario.node0 "n0" ["n1"; "n2"] "n0"
                        (Scenario.one_queued 2)
  /\ PendingWork.total_no_of_updates (Scenario.one_queued 2)
     = PendingWork.sum_len (PendingWork.queues (Scenario.one_queued 2)).
Proof.
  assert (PendingWork.reachable 2 Scenario.node0 "n0" ["n1"; "n2"] "n0"
                                (Scenario.one_queued 2)) as R.
  { apply PendingWork.reach_call; [apply PendingWork.reach_setup | exact I]. }
  split; [exact R|].
  apply (C1_counter_is_sum_of_queue_lengths string 2 Scenario.node0 "n0"
           ["n1"; "n2"] "n0" (Scenario.one_queued 2) R).
Defined.

(** C2 for a second record of ["n1"]: one record queued, ratio 2,
    cached minimum 2. *)
Lemma C2_pushback_witness :
  (PendingWork.frozen (Scenario.one_queued 2) = false
   /\ PendingWork.min_queue_len (Scenario.one_queued 2) = Some 2
   /\ Dict.get (PendingWork.queues (Scenario.one_queued 2)) "n1" = Some ["u1"])
  /\ fst (PendingWork.enqueue "u2" "n1" (Scenario.one_queued 2)) = Return tt.
Proof.
  split; [repeat split|].
  destruct (C2_pushback_exactly_above_ratio string "u2" "n1"
              (Scenario.one_queued 2) 2 ["u1"] eq_refl eq_refl eq_refl)
    as (_ & H & _).
  apply H. vm_compute. discriminate.
Defined.

(** C4 for [clear_all] with one record queued. *)
Lemma C4_barrier_witness :
  (0 <= 2
   /\ PendingWork.reachable 2 Scenario.node0 "n0" ["n1"; "n2"] "n0"
                            (Scenario.one_queued 2))
  /\ PendingWork.total_no_of_updates
       (PendingWork.clear_all (Scenario.one_queued 2)) = 0
  /\ PendingWork.frozen (PendingWork.clear_all (Scenario.one_queued 2)) = true.
Proof.
  assert (PendingWork.reachable 2 Scenario.node0 "n0" ["n1"; "n2"] "n0"
                                (Scenario.one_queued 2)) as R.
  { apply PendingWork.reach_call; [apply PendingWork.reach_setup | exact I]. }
  split; [split; [lia | exact R]|].
  apply (C4_barrier_until_leader_enqueues string 2 Scenario.node0 "n0"
           ["n1"; "n2"] "n0" (Scenario.one_queued 2)); [lia | exact R].
Defined.

(** C4 as it is worded fails for a registry with ratio -1: after an
    update of ["n1"] was queued and the queues were cleared, the cached
    minimum is 2 and the barrier is up; the enqueue of the leader then
    finds its empty queue longer than -2, raises [DevicePushbackError]
    and inserts nothing, though it has lifted the barrier. *)
Lemma C4_negative_ratio_pushes_the_leader_back :
  PendingWork.reachable (-1) Scenario.node0 "n0" ["n1"; "n2"] "n0"
                        Scenario.cleared_negative
  /\ PendingWork.frozen Scenario.cleared_negative = true
  /\ PendingWork.leader Scenario.cleared_negative = "n0"
  /\ PendingWork.enqueue "u2" "n0" Scenario.cleared_negative
     = (Raise DevicePushbackError,
        PendingWork.set_frozen false Scenario.cleared_negative)
  /\ PendingWork.queue_of
       (snd (PendingWork.enqueue "u2" "n0" Scenario.cleared_negative)) "n0"
     = [].
Proof.
  split.
  - change Scenario.cleared_negative
      with (PendingWork.after PendingWork.ClearAll
              (PendingWork.after (PendingWork.Enqueue "u1" "n1")
                 (Scenario.fresh (-1)))).
    apply PendingWork.reach_call; [|exact I].
    apply PendingWork.reach_call; [|exact I].
    apply PendingWork.reach_setup.
  - vm_compute. repeat split.
Qed.

(** C5 with ["u3"] queued for ["n0"] and ["u1"], ["u2"] for ["n1"]: of
    the three numbers [randint] can return, two make [dequeue_random]
    take its record from ["n1"]. *)
Lemma C5_dequeue_random_witness :
  PendingWork.total_no_of_updates Scenario.three_queued
  = PendingWork.sum_len (PendingWork.queues Scenario.three_queued)
  /\ 0 < PendingWork.total_no_of_updates Scenario.three_queued
  /\ NoDup (Dict.keys (PendingWork.queues Scenario.three_queued))
  /\ Z.of_nat (List.length (PendingWork.randint_values Scenario.three_queued))
     = 3
  /\ Z.of_nat (List.length
                 (PendingWork.random_draws_from Scenario.three_queued "n1"))
     = 2.
Proof.
  assert (PendingWork.total_no_of_updates Scenario.three_queued
          = PendingWork.sum_len (PendingWork.queues Scenario.three_queued))
    as I by (vm_compute; reflexivity).
  assert (0 < PendingWork.total_no_of_updates Scenario.three_queued) as P
    by (vm_compute; reflexivity).
  assert (NoDup (Dict.keys (PendingWork.queues Scenario.three_queued))) as ND.
  { vm_compute. repeat constructor; simpl; intuition discriminate. }
  assert (Dict.get (PendingWork.queues Scenario.three_queued) "n1"
          = Some ["u1"; "u2"]) as G by (vm_compute; reflexivity).
  destruct (C5_dequeue_random_finds_a_record string Scenario.three_queued I)
    as (_ & H & _).
  destruct (H P) as (_ & T & C).
  split; [exact I | split; [exact P | split; [exact ND | split]]].
  - exact T.
  - exact (C ND "n1" ["u1"; "u2"] G).
Defined.

(** C7 for the queue of ["n1"] holding one record. *)
Lemma C7_dequeue_witness :
  PendingWork.total_no_of_updates (Scenario.one_queued 2) <> 0
  /\ Dict.get (PendingWork.queues (Scenario.one_queued 2)) "n1" = Some ["u1"]
  /\ fst (PendingWork.dequeue "n1" (Scenario.one_queued 2)) = Return "u1".
Proof.
  assert (PendingWork.total_no_of_updates (Scenario.one_queued 2) <> 0) as N
    by (vm_compute; discriminate).
  split; [exact N | split; [reflexivity|]].
  destruct (C7_dequeue_oldest_or_empty_queue_error string "n1"
              (Scenario.one_queued 2)) as (_ & _ & _ & H & _).
  apply (H "u1" [] N eq_refl).
Defined.

(** C9 for a request of ["n1"], which is not the leader. *)
Lemma C9_non_leader_witness :
  "n1" <> PendingWork.leader (Scenario.one_queued 2)
  /\ Main.clear_all_queues (Main.mkClearRequest "n1" 3) (Scenario.one_queued 2)
     = (Main.non_leader_response, Scenario.one_queued 2).
Proof.
  assert ("n1" <> PendingWork.leader (Scenario.one_queued 2)) as N
    by (vm_compute; discriminate).
  split; [exact N|].
  destruct (C9_only_the_leader_clears string (Main.mkClearRequest "n1" 3)
              (Scenario.one_queued 2)) as (H & _).
  apply H. exact N.
Defined.

(** C8 for a round with one contribution and two alphas. *)
Lemma C8_mismatch_witness :
  Solver.collect Dict.keys Scenario.empty_model_and_metadata_from
                 Scenario.solver0
  = (Return ([[("0", 1)]], [[("n0", 5); ("n1", 3)]], ["n0"; "n1"]),
     Scenario.solver1)
  /\ fst (Solver.aggregate_received_updates
            Z.mul Z.add 0 Dict.keys Scenario.flatten_metadata
            Scenario.get_alphas
            Scenario.update_internal_state_after_aggregation
            Scenario.empty_model_and_metadata_from Scenario.solver0)
     = Raise ValueError.
Proof.
  split; [reflexivity|].
  pose proof (C8_count_mismatch_raises_before_any_update
                Z Z Z.mul Z.add 0 (Dict.t Z) (Dict.t Z) (list Z) Dict.keys
                Scenario.flatten_metadata Scenario.get_alphas
                Scenario.update_internal_state_after_aggregation
                string Scenario.empty_model_and_metadata_from
                Scenario.solver0 Scenario.solver1
                [[("0", 1)]] [[("n0", 5); ("n1", 3)]] ["n0"; "n1"] eq_refl)
    as H.
  cbv zeta in H. destruct H as [H _]. destruct H as [E _].
  - left. vm_compute. intros N. discriminate N.
  - rewrite E. reflexivity.
Defined.

(** C10 after two losses. *)
Lemma C10_two_losses_witness :
  (List.length [0.5%float; 0.25%float] < 50)%nat
  /\ Solver.convergent
       (Solver.record_losses [0.5%float; 0.25%float] Solver.initial_loss_list)
     = Return false.
Proof.
  assert (List.length [0.5%float; 0.25%float] < 50)%nat as L by (simpl; lia).
  split; [exact L|].
  apply (C10_not_converged_before_fifty_losses [0.5%float; 0.25%float] L).
Defined.

(** * More on the registry *)

Section DictMore.

Variable V : Type.

Lemma keys_set_in (d : Dict.t V) (key x : string) (v : V) :
  In x (Dict.keys (Dict.set d key v)) <-> x = key \/ In x (Dict.keys d).
Proof.
  induction d as [|[k0 v0] rest IH]; simpl.
  - intuition congruence.
  - destruct (String.eqb k0 key) eqn:E; simpl.
    + apply String.eqb_eq in E. subst k0. intuition congruence.
    + rewrite IH. tauto.
Qed.

Lemma get_some_in_keys (d : Dict.t V) (key : string) (v : V) :
  Dict.get d key = Some v -> In key (Dict.keys d).
Proof.
  induction d as [|[k0 v0] rest IH]; simpl; [discriminate|].
  destruct (String.eqb k0 key) eqn:E; auto.
  apply String.eqb_eq in E. auto.
Qed.

Lemma in_keys_get_some (d : Dict.t V) (key : string) :
  In key (Dict.keys d) -> exists v, Dict.get d key = Some v.
Proof.
  induction d as [|[k0 v0] rest IH]; simpl; [tauto|].
  destruct (String.eqb k0 key) eqn:E; eauto.
  intros [H|H]; auto. apply String.eqb_neq in E. contradiction.
Qed.

Lemma nodup_keys_set (d : Dict.t V) (key : string) (v : V) :
  NoDup (Dict.keys d) -> NoDup (Dict.keys (Dict.set d key v)).
Proof.
  intros ND. destruct (Dict.get d key) as [v'|] eqn:G.
  - now rewrite (keys_set_present _ _ _ _ _ G).
  - rewrite (keys_set_absent _ _ _ _ G).
    apply NoDup_app; auto.
    + constructor; [simpl; tauto | constructor].
    + intros x I [<-|[]].
      destruct (in_keys_get_some _ _ I) as [v' G']. congruence.
Qed.

(** A key that is set where it already is leaves the order alone; a
    new one goes last. *)
Lemma keys_set_grow (d : Dict.t V) (key : string) (v : V) :
  exists extra, Dict.keys (Dict.set d key v) = Dict.keys d ++ extra.
Proof.
  destruct (Dict.get d key) as [v'|] eqn:G.
  - exists []. rewrite (keys_set_present _ _ _ _ _ G). now rewrite app_nil_r.
  - exists [key]. apply keys_set_absent. exact G.
Qed.

End DictMore.

Section RegistryMore.

Variable ModelUpdate : Type.

Abbreviation registry := (PendingWork.t ModelUpdate).
Abbreviation dict := (Dict.t (UpdateQueue.t ModelUpdate)).

(** The loop of [setup] over the other hosts. *)
Lemma setup_fold_keys (others : list string) (qs : dict) :
  NoDup (Dict.keys qs) ->
  let qs' := fold_left (fun d host => Dict.set d host UpdateQueue.new)
                       others qs in
  NoDup (Dict.keys qs')
  /\ (forall h, In h (Dict.keys qs') <-> In h others \/ In h (Dict.keys qs)).
Proof.
  revert qs. induction others as [|host rest IH]; intros qs ND; simpl.
  - split; auto. tauto.
  - destruct (IH (Dict.set qs host UpdateQueue.new)) as [A B].
    { now apply nodup_keys_set. }
    split; auto.
    intros h. rewrite B, keys_set_in. intuition congruence.
Qed.

(** X1.  [setup] on a new registry gives this host and each of the other
    hosts one queue, which is empty; a host that is named twice gets one
    queue.  The counter is 0, nothing is cached or frozen, and
    [num_devices] counts the names given. *)
Theorem setup_one_empty_queue_per_host
        (ratio : Z) (nd : PendingWork.Node) (me : string)
        (others : list string) (ldr : string) :
  let s := PendingWork.setup me others ldr
             (PendingWork.init ModelUpdate ratio nd) in
  NoDup (Dict.keys (PendingWork.queues s))
  /\ (forall h, In h (Dict.keys (PendingWork.queues s)) <-> In h (me :: others))
  /\ (forall h, In h (me :: others) ->
        Dict.get (PendingWork.queues s) h = Some [])
  /\ PendingWork.total_no_of_updates s = 0
  /\ PendingWork.min_queue_len s = None
  /\ PendingWork.frozen s = false
  /\ PendingWork.leader s = ldr
  /\ PendingWork.num_devices s = 1 + Z.of_nat (List.length others).
Proof.
  intros s.
  destruct (setup_fold_keys others [(me, UpdateQueue.new)]) as [ND K].
  { simpl. constructor; [simpl; tauto | constructor]. }
  assert (forall h, In h (Dict.keys (PendingWork.queues s))
                    <-> In h (me :: others)) as K'.
  { intros h. subst s. simpl PendingWork.queues. rewrite K. simpl.
    intuition congruence. }
  repeat split; auto; try apply K'.
  intros h I. apply K' in I.
  destruct (in_keys_get_some _ _ _ I) as [q G]. rewrite G. f_equal.
  eapply get_empty; eauto.
  pose proof (counter_ok_setup ModelUpdate ratio nd me others ldr) as C.
  unfold PendingWork.counter_ok in C. fold s in C. rewrite <- C. reflexivity.
Qed.

(** X2.  No call removes a queue or changes the order of the hosts: the
    hosts after a call are those before it, followed by the host the
    call created a queue for, if any; and they stay distinct. *)
Theorem calls_keep_every_queue (c : PendingWork.call ModelUpdate) (s : registry) :
  exists extra,
    Dict.keys (PendingWork.queues (PendingWork.after c s))
    = Dict.keys (PendingWork.queues s) ++ extra
    /\ (List.length extra <= 1)%nat
    /\ (NoDup (Dict.keys (PendingWork.queues s)) ->
        NoDup (Dict.keys (PendingWork.queues (PendingWork.after c s)))).
Proof.
  assert (forall (u : ModelUpdate) (host : string) (s0 : registry),
             exists extra,
               Dict.keys (PendingWork.queues
                            (snd (PendingWork.enqueue_locked u host s0)))
               = Dict.keys (PendingWork.queues s0) ++ extra
               /\ (List.length extra <= 1)%nat
               /\ (NoDup (Dict.keys (PendingWork.queues s0)) ->
                   NoDup (Dict.keys (PendingWork.queues
                            (snd (PendingWork.enqueue_locked u host s0))))))
    as Locked.
  { intros u host s0. unfold PendingWork.enqueue_locked.
    destruct (Dict.get (PendingWork.queues s0) host) as [q|] eqn:G.
    - exists []. rewrite app_nil_r.
      destruct (PendingWork.pushes_back s0 q); simpl; auto.
      rewrite (keys_set_present _ _ _ _ _ G). auto.
    - exists [host]. simpl. rewrite (keys_set_absent _ _ _ _ G).
      repeat split; auto.
      intros ND. rewrite <- (keys_set_absent _ _ _ (UpdateQueue.new) G).
      now apply nodup_keys_set. }
  destruct c as [u host|host|r| |]; simpl.
  - unfold PendingWork.enqueue. destruct (PendingWork.frozen s).
    + destruct (String.eqb host (PendingWork.leader s)).
      * apply (Locked u host (PendingWork.set_frozen false s)).
      * exists []. rewrite app_nil_r. simpl. auto.
    + apply Locked.
  - unfold PendingWork.dequeue.
    destruct (PendingWork.total_no_of_updates s =? 0).
    { exists []. rewrite app_nil_r. simpl. auto. }
    destruct (Dict.get (PendingWork.queues s) host) as [q|] eqn:G.
    + exists []. rewrite app_nil_r.
      destruct (UpdateQueue.len q >? 0); simpl; auto.
      destruct q as [|u q']; simpl; auto.
      rewrite (keys_set_present _ _ _ _ _ G). auto.
    + exists [host]. simpl. rewrite (keys_set_absent _ _ _ _ G).
      repeat split; auto.
      intros ND. rewrite <- (keys_set_absent _ _ _ (UpdateQueue.new) G).
      now apply nodup_keys_set.
  - exists []. rewrite app_nil_r. unfold PendingWork.dequeue_random.
    destruct (PendingWork.total_no_of_updates s =? 0); simpl; auto.
    destruct (PendingWork.dequeue_random_loop (PendingWork.queues s) r)
      as [[[key [u|e]] qs']|] eqn:L; simpl; auto.
    destruct (dequeue_random_loop_sum _ _ _ _ _ _ L) as [_ K].
    rewrite K. auto.
  - exists []. rewrite app_nil_r. unfold PendingWork.dequeue_every_queue.
    pose proof (dequeue_every_queue_loop_spec _ (PendingWork.queues s)
                  (PendingWork.total_no_of_updates s)) as (_ & _ & K).
    destruct (PendingWork.dequeue_every_queue_loop (PendingWork.queues s)
                (PendingWork.total_no_of_updates s)) as [qs total].
    simpl in *. rewrite K. auto.
  - exists []. rewrite app_nil_r.
    unfold PendingWork.clear_all, PendingWork.dequeue_every_queue. simpl.
    pose proof (dequeue_every_queue_loop_spec _ (PendingWork.queues s)
                  (PendingWork.total_no_of_updates s)) as (_ & _ & K).
    destruct (PendingWork.dequeue_every_queue_loop (PendingWork.queues s)
                (PendingWork.total_no_of_updates s)) as [qs total].
    simpl in *. rewrite K. auto.
Qed.

End RegistryMore.

Section RegistryOrder.

Variable ModelUpdate : Type.

Abbreviation registry := (PendingWork.t ModelUpdate).
Abbreviation dict := (Dict.t (UpdateQueue.t ModelUpdate)).

(** An entry of the dictionary with its queue emptied. *)
Abbreviation emptied :=
  (fun e : string * UpdateQueue.t ModelUpdate =>
     (fst e, @UpdateQueue.new ModelUpdate)).

Lemma set_absent_app (V : Type) (d : Dict.t V) (key : string) (v : V) :
  Dict.get d key = None -> Dict.set d key v = d ++ [(key, v)].
Proof.
  induction d as [|[k0 v0] rest IH]; simpl; auto.
  destruct (String.eqb k0 key); [discriminate|].
  intros G. f_equal. auto.
Qed.

(** X3.  The first update of a host that has no queue is taken whatever the
    ratio and the cached minimum are (lines 65-73): the host gets a
    queue, last in the dictionary, that holds the update.  The solver is
    not notified on this path. *)
Theorem first_update_of_a_host_is_never_pushed_back
        (u : ModelUpdate) (host : string) (s : registry) :
  PendingWork.frozen s = false \/ host = PendingWork.leader s ->
  Dict.get (PendingWork.queues s) host = None ->
  let r := PendingWork.enqueue u host s in
  fst r = Return tt
  /\ PendingWork.queues (snd r) = PendingWork.queues s ++ [(host, [u])]
  /\ PendingWork.total_no_of_updates (snd r)
     = PendingWork.total_no_of_updates s + 1
  /\ PendingWork.frozen (snd r) = false
  /\ PendingWork.node (snd r) = PendingWork.node s.
Proof.
  intros Gate G.
  assert (forall s0 : registry,
             Dict.get (PendingWork.queues s0) host = None ->
             let r := PendingWork.enqueue_locked u host s0 in
             fst r = Return tt
             /\ PendingWork.queues (snd r)
                = PendingWork.queues s0 ++ [(host, [u])]
             /\ PendingWork.total_no_of_updates (snd r)
                = PendingWork.total_no_of_updates s0 + 1
             /\ PendingWork.frozen (snd r) = PendingWork.frozen s0
             /\ PendingWork.node (snd r) = PendingWork.node s0) as Locked.
  { intros s0 G0. unfold PendingWork.enqueue_locked. rewrite G0. simpl.
    repeat split. now apply set_absent_app. }
  unfold PendingWork.enqueue.
  destruct (PendingWork.frozen s) eqn:F.
  - destruct Gate as [Fz | Ld]; [discriminate | subst host].
    rewrite String.eqb_refl.
    apply (Locked (PendingWork.set_frozen false s)). exact G.
  - destruct (Locked s G) as (A & B & C & D & E).
    repeat split; auto. simpl in D. congruence.
Qed.

(** X4.  The solver is notified exactly when a record joins a queue that was
    already there: not when the update is dropped by the barrier, not
    when it is pushed back, and not when it opens a new queue.  The
    sender of the node is never touched. *)
Theorem enqueue_notifies_only_for_an_existing_queue
        (u : ModelUpdate) (host : string) (s : registry) :
  let s' := snd (PendingWork.enqueue u host s) in
  PendingWork.sender_queues (PendingWork.node s')
  = PendingWork.sender_queues (PendingWork.node s)
  /\ PendingWork.condition_notified (PendingWork.node s')
     = match Dict.get (PendingWork.queues s) host with
       | Some q =>
           if (negb (PendingWork.frozen s)
               || String.eqb host (PendingWork.leader s))
              && negb (PendingWork.pushes_back s q)
           then S (PendingWork.condition_notified (PendingWork.node s))
           else PendingWork.condition_notified (PendingWork.node s)
       | None => PendingWork.condition_notified (PendingWork.node s)
       end.
Proof.
  unfold PendingWork.enqueue, PendingWork.enqueue_locked.
  destruct (PendingWork.frozen s) eqn:F; simpl.
  - destruct (String.eqb host (PendingWork.leader s)); simpl.
    + destruct (Dict.get (PendingWork.queues s) host) as [q|]; simpl; auto.
      change (PendingWork.pushes_back (PendingWork.set_frozen false s) q)
        with (PendingWork.pushes_back s q).
      destruct (PendingWork.pushes_back s q); simpl; auto.
    + destruct (Dict.get (PendingWork.queues s) host); auto.
  - destruct (Dict.get (PendingWork.queues s) host) as [q|]; simpl; auto.
    destruct (PendingWork.pushes_back s q); simpl; auto.
Qed.

(** X5.  First in, first out: when an update is taken into the queue of a
    host, the next [dequeue] for that host returns the record that was
    at the head before (the update itself if the queue was empty), the
    update stays last, and the counter is back where it was. *)
Theorem enqueue_then_dequeue_is_fifo
        (u : ModelUpdate) (host : string) (s : registry)
        (q : UpdateQueue.t ModelUpdate) :
  PendingWork.total_no_of_updates s = PendingWork.sum_len (PendingWork.queues s) ->
  PendingWork.frozen s = false ->
  Dict.get (PendingWork.queues s) host = Some q ->
  PendingWork.pushes_back s q = false ->
  let s1 := snd (PendingWork.enqueue u host s) in
  fst (PendingWork.dequeue host s1) = Return (hd u q)
  /\ Dict.get (PendingWork.queues (snd (PendingWork.dequeue host s1))) host
     = Some (tl (q ++ [u]))
  /\ PendingWork.total_no_of_updates (snd (PendingWork.dequeue host s1))
     = PendingWork.total_no_of_updates s.
Proof.
  intros I F G P s1.
  assert (s1 = snd (PendingWork.enqueue_locked u host s)) as E1.
  { subst s1. unfold PendingWork.enqueue. now rewrite F. }
  destruct (enqueue_locked_existing _ u host s q G P) as (_ & B & _ & D & _).
  rewrite <- E1 in B, D.
  pose proof (sum_len_nonneg _ (PendingWork.queues s)) as NN.
  assert ((PendingWork.total_no_of_updates s1 =? 0) = false) as T
    by (apply Z.eqb_neq; lia).
  assert (q ++ [u] = hd u q :: tl (q ++ [u])) as Sh by (destruct q; reflexivity).
  remember (hd u q) as x eqn:Ex. remember (tl (q ++ [u])) as t eqn:Et.
  rewrite Sh in B.
  assert ((UpdateQueue.len (x :: t) >? 0) = true) as L.
  { rewrite Z.gtb_ltb, Z.ltb_lt, len_cons. pose proof (len_nonneg _ t). lia. }
  unfold PendingWork.dequeue. rewrite T, B, L. simpl.
  repeat split.
  - apply get_set_same.
  - lia.
Qed.

Lemma dequeue_every_queue_loop_map (qs : dict) (total : Z) :
  PendingWork.dequeue_every_queue_loop qs total
  = (map emptied qs,
     total - PendingWork.sum_len qs).
Proof.
  revert total. induction qs as [|[key q] rest IH]; intros total; simpl.
  - f_equal. lia.
  - rewrite IH. unfold UpdateQueue.clear, UpdateQueue.new. f_equal. lia.
Qed.

Lemma sum_len_map_new (qs : dict) :
  PendingWork.sum_len (map emptied qs) = 0.
Proof.
  induction qs as [|[key q] rest IH]; simpl; auto; rewrite IH; reflexivity.
Qed.

(** X6.  [dequeue_every_queue] empties each queue and keeps every host in its
    place; the counter loses the records that were queued.  The cached
    minimum is not recomputed, [frozen] and the node are not touched,
    and a second call changes nothing more. *)
Theorem dequeue_every_queue_empties_each_queue (s : registry) :
  let s' := PendingWork.dequeue_every_queue s in
  PendingWork.queues s'
  = map emptied (PendingWork.queues s)
  /\ PendingWork.total_no_of_updates s'
     = PendingWork.total_no_of_updates s
       - PendingWork.sum_len (PendingWork.queues s)
  /\ PendingWork.min_queue_len s' = PendingWork.min_queue_len s
  /\ PendingWork.frozen s' = PendingWork.frozen s
  /\ PendingWork.node s' = PendingWork.node s
  /\ PendingWork.dequeue_every_queue s' = s'.
Proof.
  unfold PendingWork.dequeue_every_queue.
  rewrite dequeue_every_queue_loop_map. simpl.
  repeat split.
  rewrite dequeue_every_queue_loop_map. simpl.
  rewrite map_map. simpl. rewrite sum_len_map_new.
  unfold PendingWork.set_total_no_of_updates, PendingWork.set_queues. simpl.
  f_equal. lia.
Qed.

(** X7.  A clear signal that arrives twice does what one does: [clear_all]
    after [clear_all] leaves the registry as it is. *)
Theorem clear_all_twice_is_clear_all (s : registry) :
  PendingWork.clear_all (PendingWork.clear_all s) = PendingWork.clear_all s.
Proof.
  unfold PendingWork.clear_all, PendingWork.dequeue_every_queue,
    PendingWork.freeze_node.
  rewrite !dequeue_every_queue_loop_map. simpl.
  rewrite map_map. simpl. rewrite sum_len_map_new.
  unfold PendingWork.set_total_no_of_updates, PendingWork.set_queues,
    PendingWork.sender_dequeue_every_queue. simpl.
  f_equal. lia.
Qed.

(** X8.  When the leader's update is pushed back while the barrier is up, the
    barrier is lifted all the same: [frozen] is cleared on line 61,
    before the admission test, and nothing is queued. *)
Theorem pushed_back_leader_update_still_lifts_the_barrier
        (u : ModelUpdate) (s : registry) (q : UpdateQueue.t ModelUpdate) :
  PendingWork.frozen s = true ->
  Dict.get (PendingWork.queues s) (PendingWork.leader s) = Some q ->
  PendingWork.pushes_back s q = true ->
  PendingWork.enqueue u (PendingWork.leader s) s
  = (Raise DevicePushbackError, PendingWork.set_frozen false s).
Proof.
  intros F G P. unfold PendingWork.enqueue, PendingWork.enqueue_locked.
  rewrite F, String.eqb_refl. simpl. rewrite G.
  change (PendingWork.pushes_back (PendingWork.set_frozen false s) q)
    with (PendingWork.pushes_back s q).
  now rewrite P.
Qed.

End RegistryOrder.

Section RegistryReach.

Variable ModelUpdate : Type.

Abbreviation registry := (PendingWork.t ModelUpdate).

Lemma str_len_positive (key : string) : key <> "" -> 1 <= str_len key.
Proof.
  destruct key as [|c rest]; [congruence|].
  intros _. unfold str_len. simpl String.length. lia.
Qed.

Lemma min_step_is_min (v : Z) (key : string) :
  1 <= v -> 1 <= str_len key ->
  PendingWork.min_step (Some v) key = Some (Z.min v (str_len key)).
Proof.
  intros Hv Hk. unfold PendingWork.min_step. cbv zeta beta iota.
  destruct (Z.ltb_spec (str_len key) v); destruct (Z.eqb_spec v 1); simpl;
    f_equal; lia.
Qed.

Lemma min_fold_is_min (keys : list string) (v : Z) :
  1 <= v -> ~ In "" keys ->
  fold_left PendingWork.min_step keys (Some v)
  = Some (match PendingWork.least_key_len keys with
          | Some m => Z.min v m
          | None => v
          end).
Proof.
  revert v. induction keys as [|key rest IH]; intros v Hv NI; simpl; auto.
  assert (1 <= str_len key) as Hk by (apply str_len_positive; simpl in NI; tauto).
  rewrite min_step_is_min by assumption.
  rewrite IH by (simpl in NI; try lia; tauto).
  f_equal. destruct (PendingWork.least_key_len rest); lia.
Qed.

(** What [_update_min_and_max] caches when no host has the empty name:
    the length of the shortest host name. *)
Lemma update_min_is_least_key_len (keys : list string) :
  ~ In "" keys ->
  fold_left PendingWork.min_step keys None = PendingWork.least_key_len keys.
Proof.
  destruct keys as [|key rest]; simpl; auto.
  intros NI.
  assert (1 <= str_len key) as Hk by (apply str_len_positive; tauto).
  replace (PendingWork.min_step None key) with (Some (str_len key)).
  - rewrite min_fold_is_min by tauto.
    destruct (PendingWork.least_key_len rest); auto.
  - unfold PendingWork.min_step. now rewrite Z.ltb_irrefl.
Qed.

(** The cached minimum is unset or what [_update_min_and_max] gives for
    the hosts of the registry. *)
Lemma cache_follows_keys_after (c : PendingWork.call ModelUpdate) (s : registry) :
  (PendingWork.min_queue_len s = None
   \/ PendingWork.min_queue_len s
      = fold_left PendingWork.min_step (Dict.keys (PendingWork.queues s)) None) ->
  PendingWork.min_queue_len (PendingWork.after c s) = None
  \/ PendingWork.min_queue_len (PendingWork.after c s)
     = fold_left PendingWork.min_step
                 (Dict.keys (PendingWork.queues (PendingWork.after c s))) None.
Proof.
  intros I.
  destruct c as [u host|host|r| |]; simpl.
  - unfold PendingWork.enqueue, PendingWork.enqueue_locked.
    destruct (PendingWork.frozen s).
    + destruct (String.eqb host (PendingWork.leader s)); simpl; auto.
      destruct (Dict.get (PendingWork.queues s) host) as [q|]; simpl; auto.
      destruct (PendingWork.pushes_back (PendingWork.set_frozen false s) q);
        simpl; auto.
    + destruct (Dict.get (PendingWork.queues s) host) as [q|]; simpl; auto.
      destruct (PendingWork.pushes_back s q); simpl; auto.
  - unfold PendingWork.dequeue.
    destruct (PendingWork.total_no_of_updates s =? 0); simpl; auto.
    destruct (Dict.get (PendingWork.queues s) host) as [q|]; simpl; auto.
    destruct (UpdateQueue.len q >? 0); simpl; auto.
    destruct q as [|u q']; simpl; auto.
  - unfold PendingWork.dequeue_random.
    destruct (PendingWork.total_no_of_updates s =? 0); simpl; auto.
    destruct (PendingWork.dequeue_random_loop (PendingWork.queues s) r)
      as [[[key [u|e]] qs']|]; simpl; auto.
  - unfold PendingWork.dequeue_every_queue.
    rewrite dequeue_every_queue_loop_map. simpl.
    unfold Dict.keys. rewrite map_map. simpl. exact I.
  - unfold PendingWork.clear_all, PendingWork.dequeue_every_queue.
    rewrite dequeue_every_queue_loop_map. simpl.
    unfold Dict.keys. rewrite map_map. simpl. exact I.
Qed.

(** X9.  Whatever is queued, the cached minimum of a registry whose hosts all
    have a name is either still unset or the number of characters of the
    shortest host name: the threshold of the admission test does not
    depend on the queues. *)
Theorem cached_minimum_is_the_shortest_host_name
        (ratio : Z) (nd : PendingWork.Node) (me : string)
        (others : list string) (ldr : string) (s : registry) :
  PendingWork.reachable ratio nd me others ldr s ->
  ~ In "" (Dict.keys (PendingWork.queues s)) ->
  PendingWork.min_queue_len s = None
  \/ PendingWork.min_queue_len s
     = PendingWork.least_key_len (Dict.keys (PendingWork.queues s)).
Proof.
  intros R NI.
  assert (PendingWork.min_queue_len s = None
          \/ PendingWork.min_queue_len s
             = fold_left PendingWork.min_step
                         (Dict.keys (PendingWork.queues s)) None) as [N|E].
  { clear NI. induction R as [|s c R IH P].
    - left. reflexivity.
    - now apply cache_follows_keys_after. }
  - now left.
  - right. rewrite E. now apply update_min_is_least_key_len.
Qed.

(** X10.  From [setup] on, [dequeue_random] never raises [ExtraFatal] and
    never dequeues from an empty queue: for every number [randint] can
    return it raises [EmptyQueueError] with the registry untouched when
    nothing is queued, and returns a record otherwise. *)
Theorem dequeue_random_never_fails_internally
        (ratio : Z) (nd : PendingWork.Node) (me : string)
        (others : list string) (ldr : string) (s : registry) (r : Z) :
  PendingWork.reachable ratio nd me others ldr s ->
  PendingWork.valid_draw s r ->
  (PendingWork.total_no_of_updates s = 0
   /\ PendingWork.dequeue_random r s = (Raise EmptyQueueError, s))
  \/ (0 < PendingWork.total_no_of_updates s
      /\ exists u s',
           PendingWork.dequeue_random r s = (Return u, s')
           /\ PendingWork.total_no_of_updates s'
              = PendingWork.total_no_of_updates s - 1).
Proof.
  intros R D.
  destruct (reachable_barrier_ok _ _ _ _ _ _ _ R) as (I & _).
  unfold PendingWork.counter_ok in I.
  pose proof (sum_len_nonneg _ (PendingWork.queues s)) as NN.
  unfold PendingWork.valid_draw, PendingWork.randint_bounds in D. simpl in D.
  unfold PendingWork.dequeue_random.
  destruct (PendingWork.total_no_of_updates s =? 0) eqn:T.
  - apply Z.eqb_eq in T. left. auto.
  - apply Z.eqb_neq in T. right. split; [lia|].
    destruct (dequeue_random_loop_finds _ (PendingWork.queues s) r)
      as (key & u & qs' & L); [lia|].
    rewrite L. simpl. eauto.
Qed.

End RegistryReach.

(** * The transport boundary and the command line *)

Section HandlerFacts.

Variable ModelUpdate : Type.
Variable decode : string -> result ModelUpdate.

(** X11.  While the barrier is up, the handler of [/send_update] answers an
    update of a host other than the leader exactly as it answers an
    update that was queued, and the registry is left as it was: the
    sender is not told that its update was dropped. *)
Theorem dropped_update_is_answered_like_a_queued_one
        (content : Main.UpdateRequest) (pw : PendingWork.t ModelUpdate)
        (update : ModelUpdate) :
  decode (Main.update_body content) = Return update ->
  PendingWork.frozen pw = true ->
  Main.update_sender content <> PendingWork.leader pw ->
  Main.receive_update decode content pw = (Return Main.update_response, pw)
  /\ forall pw' : PendingWork.t ModelUpdate,
       PendingWork.frozen pw' = false ->
       Dict.get (PendingWork.queues pw') (Main.update_sender content) = None ->
       fst (Main.receive_update decode content pw')
       = Return Main.update_response.
Proof.
  intros D F N. unfold Main.receive_update. rewrite D. split.
  - unfold PendingWork.enqueue. rewrite F.
    apply String.eqb_neq in N. now rewrite N.
  - intros pw' F' G. unfold PendingWork.enqueue. rewrite F'.
    destruct (enqueue_locked_new _ update (Main.update_sender content) pw' G)
      as (A & _).
    destruct (PendingWork.enqueue_locked update (Main.update_sender content)
                                         pw')
      as [[[]|e] pw2]; simpl in *; [reflexivity | discriminate].
Qed.

End HandlerFacts.

Section CommandLine.

Lemma split_on_no_sep (s : string) :
  Main.no_colon s -> Main.split_on ":" s = [s].
Proof.
  unfold Main.no_colon. induction s as [|c rest IH]; simpl; auto.
  intros N. destruct (Ascii.eqb c ":") eqn:E.
  - apply Ascii.eqb_eq in E. tauto.
  - rewrite IH by tauto. reflexivity.
Qed.

Lemma split_on_host_port (h p : string) :
  Main.no_colon h -> Main.no_colon p ->
  Main.split_on ":" (h ++ String ":" p)%string = [h; p].
Proof.
  unfold Main.no_colon. intros Nh Np.
  induction h as [|c rest IH]; simpl.
  - now rewrite (split_on_no_sep p Np).
  - simpl in Nh. destruct (Ascii.eqb c ":") eqn:E.
    + apply Ascii.eqb_eq in E. tauto.
    + rewrite IH by tauto. reflexivity.
Qed.

Lemma index_of_absent (x : string) (l : list string) :
  ~ In x l -> Main.index_of x l = None.
Proof.
  induction l as [|y rest IH]; simpl; auto.
  intros N. destruct (String.eqb y x) eqn:E.
  - apply String.eqb_eq in E. tauto.
  - rewrite IH by tauto. reflexivity.
Qed.

Lemma index_of_first (x : string) (l r : list string) :
  ~ In x l -> Main.index_of x (l ++ x :: r) = Some (List.length l).
Proof.
  induction l as [|y rest IH]; simpl.
  - now rewrite String.eqb_refl.
  - intros N. destruct (String.eqb y x) eqn:E.
    + apply String.eqb_eq in E. tauto.
    + rewrite IH by tauto. reflexivity.
Qed.

Lemma skipn_past_flag (l r : list string) (x : string) :
  skipn (S (List.length l)) (l ++ x :: r) = r.
Proof. induction l as [|y rest IH]; simpl; auto. Qed.

(** X12.  A command line
    [main.py -me h:p -leader l -them host ... -otherleaders leader ...]
    is read as it is written: the hosts are the words between [-them]
    and [-otherleaders], the other leaders the words after it, and the
    port the part of this host's name after the colon.  Without
    [-otherleaders] every word after [-them] is a host. *)
Theorem parse_args_reads_hosts_and_leaders
        (prog h p ld : string) (hosts : list string) :
  Main.no_colon h -> Main.no_colon p ->
  ~ In "-otherleaders" (prog :: (h ++ String ":" p)%string :: ld :: hosts) ->
  let me := (h ++ String ":" p)%string in
  Main.parse_args (prog :: "-me" :: me :: "-leader" :: ld :: "-them" :: hosts)
  = Main.Started (Main.mkConfig me ld hosts [] p)
  /\ forall leaders,
       Main.parse_args (prog :: "-me" :: me :: "-leader" :: ld :: "-them"
                             :: hosts ++ "-otherleaders" :: leaders)
       = Main.Started (Main.mkConfig me ld hosts leaders p).
Proof.
  intros Nh Np NI me. simpl in NI.
  assert (prog <> "-otherleaders" /\ me <> "-otherleaders"
          /\ ld <> "-otherleaders" /\ ~ In "-otherleaders" hosts)
    as (N1 & N2 & N3 & N4) by (subst me; intuition congruence).
  apply String.eqb_neq in N1, N2, N3.
  unfold Main.parse_args. split.
  - simpl. rewrite N1, N2, N3. simpl.
    rewrite (index_of_absent _ hosts N4).
    unfold me. rewrite (split_on_host_port h p Nh Np). simpl.
    unfold Main.items_in_range. simpl.
    rewrite Nat.sub_0_r, firstn_all. reflexivity.
  - intros leaders. simpl. rewrite N1, N2, N3. simpl.
    rewrite (index_of_first _ hosts leaders N4).
    unfold me. rewrite (split_on_host_port h p Nh Np). simpl.
    unfold Main.items_in_range. simpl.
    rewrite Nat.sub_0_r.
    rewrite firstn_app, Nat.sub_diag, firstn_all. simpl.
    rewrite app_nil_r.
    replace (List.length hosts + 1)%nat with (S (List.length hosts)) by lia.
    rewrite skipn_past_flag.
    rewrite firstn_all2; [reflexivity|].
    rewrite length_app. simpl. lia.
Qed.

(** X13.  The usage test only looks at the length up to 3: a command line of
    four or five words with [-me] and [-leader] in place does not get
    the usage message, it fails with [IndexError] on [sys.argv[5]]. *)
Theorem parse_args_short_command_line_crashes (argv : list string) :
  (4 <= List.length argv <= 5)%nat ->
  nth_error argv 1 = Some "-me" ->
  nth_error argv 3 = Some "-leader" ->
  Main.parse_args argv = Main.Crashed IndexError.
Proof.
  intros L A1 A3. unfold Main.parse_args.
  replace (List.length argv <? 4)%nat with false
    by (symmetry; apply Nat.ltb_ge; lia).
  assert (nth_error argv 5 = None) as A5 by (apply nth_error_None; lia).
  rewrite A1, A3, A5. reflexivity.
Qed.

(** X14.  With fewer than four words, or another word where [-me], [-leader]
    or [-them] is expected, the start-up code prints the usage message
    and exits. *)
Theorem parse_args_usage (argv : list string) :
  ((List.length argv < 4)%nat
   \/ (exists w, nth_error argv 1 = Some w /\ w <> "-me")
   \/ (nth_error argv 1 = Some "-me"
       /\ exists w, nth_error argv 3 = Some w /\ w <> "-leader")
   \/ (nth_error argv 1 = Some "-me" /\ nth_error argv 3 = Some "-leader"
       /\ exists w, nth_error argv 5 = Some w /\ w <> "-them")) ->
  Main.parse_args argv = Main.Usage.
Proof.
  unfold Main.parse_args.
  destruct (List.length argv <? 4)%nat eqn:L; auto.
  apply Nat.ltb_ge in L.
  intros [H|[(w & A & N)|[(A1 & w & A & N)|(A1 & A3 & w & A & N)]]].
  - lia.
  - rewrite A. apply String.eqb_neq in N. now rewrite N.
  - rewrite A1, A. apply String.eqb_neq in N. simpl. now rewrite N.
  - rewrite A1, A3, A. apply String.eqb_neq in N. simpl. now rewrite N.
Qed.

(** X15.  A host name without a colon has no port: the start-up code fails
    with [IndexError] on [my_host.split(":")[1]]. *)
Theorem parse_args_needs_a_port
        (prog me ld : string) (rest : list string) :
  Main.no_colon me ->
  Main.parse_args (prog :: "-me" :: me :: "-leader" :: ld :: "-them" :: rest)
  = Main.Crashed IndexError.
Proof.
  intros N. unfold Main.parse_args. simpl.
  rewrite (split_on_no_sep me N). simpl.
  destruct (match Main.index_of "-otherleaders" rest with
            | Some i => Some (S i) | None => None end);
    repeat match goal with
           | |- context [if ?b then _ else _] => destruct b
           end; reflexivity.
Qed.

End CommandLine.

(** * More on the solver *)

Section WindowMore.

(** X16.  The loss window always has its 50 slots.  Once 50 losses were
    recorded it holds the last 50, the newest first; before that, the
    losses recorded so far, the newest first, and zeros behind them. *)
Theorem window_holds_the_last_fifty_losses (losses : list float) :
  let w := Solver.record_losses losses Solver.initial_loss_list in
  List.length (Solver.items w) = 50%nat
  /\ Solver.maxlen w = 50%nat
  /\ ((50 <= List.length losses)%nat ->
      Solver.items w = firstn 50 (rev losses))
  /\ ((List.length losses < 50)%nat ->
      Solver.items w
      = rev losses ++ repeat 0%float (50 - List.length losses)).
Proof.
  intros w.
  destruct (record_losses_items losses Solver.initial_loss_list) as [A B].
  { simpl. lia. }
  fold w in A, B.
  change (Solver.maxlen Solver.initial_loss_list) with 50%nat in A, B.
  change (Solver.items Solver.initial_loss_list) with (repeat 0%float 50) in A.
  rewrite A. repeat split; auto.
  - rewrite length_firstn, length_app, length_rev, repeat_length. lia.
  - intros L. rewrite firstn_app.
    replace (50 - List.length (rev losses))%nat with 0%nat
      by (rewrite length_rev; lia).
    simpl. now rewrite app_nil_r.
  - intros L. rewrite firstn_app, length_rev.
    rewrite firstn_all2 by (rewrite length_rev; lia).
    f_equal.
    replace 50%nat with ((50 - List.length losses)
                         + List.length losses)%nat at 2 by lia.
    rewrite repeat_app, firstn_app, repeat_length, Nat.sub_diag.
    rewrite firstn_all2 by (rewrite repeat_length; lia).
    simpl. now rewrite app_nil_r.
Qed.

Lemma nan_spec (x : float) : PrimFloat.is_nan x = true -> Prim2SF x = S754_nan.
Proof. intros N. unfold Prim2SF. now rewrite N. Qed.

Lemma ltb_abs_nan (x y : float) :
  Prim2SF x = S754_nan -> PrimFloat.ltb (PrimFloat.abs x) y = false.
Proof.
  intros N. rewrite ltb_spec, abs_spec, N. reflexivity.
Qed.

(** X17.  A loss that is not a number never counts as convergence: when the
    newest or the oldest slot of the window is NaN, [convergent] returns
    false. *)
Theorem nan_loss_is_never_convergence (losses : list float) :
  PrimFloat.is_nan (Solver.loss_back losses 0) = true
  \/ PrimFloat.is_nan (Solver.loss_back losses 49) = true ->
  Solver.convergent (Solver.record_losses losses Solver.initial_loss_list)
  = Return false.
Proof.
  intros N. rewrite convergent_recorded.
  destruct (Solver.float_ne (Solver.loss_back losses 0) 0%float); auto.
  destruct (Solver.float_ne (Solver.loss_back losses 49) 0%float); auto.
  f_equal. apply ltb_abs_nan.
  rewrite div_spec, sub_spec.
  destruct N as [N|N]; apply nan_spec in N; rewrite N.
  - reflexivity.
  - destruct (Prim2SF (Solver.loss_back losses 0)); reflexivity.
Qed.

End WindowMore.

Section UpdateLoopFacts.

Variables Tensor Alpha : Type.
Variable tensor_scale : Alpha -> Tensor -> Tensor.
Variable tensor_add : Tensor -> Tensor -> Tensor.
Variable tensor_zero : Tensor.

Abbreviation apply_updates :=
  (Solver.apply_updates tensor_scale tensor_add tensor_zero).
Abbreviation weighted_terms := (Solver.weighted_terms tensor_scale).

(** The terms of an index are missing exactly when one contribution has
    no delta for it. *)
Lemma weighted_terms_missing (idx : string)
      (pairs : list (Alpha * Solver.Weights Tensor)) :
  (exists e, weighted_terms idx pairs = Raise e)
  <-> exists alpha weight, In (alpha, weight) pairs
                           /\ Dict.get weight idx = None.
Proof.
  induction pairs as [|[alpha weight] rest IH]; simpl.
  - split; [intros [e E]; discriminate | intros (a & w & [] & _)].
  - destruct (Dict.get weight idx) as [t|] eqn:G.
    + destruct (weighted_terms idx rest) as [terms|e0] eqn:W.
      * split; [intros [e E]; discriminate|].
        intros (a & w & [E|I] & N).
        -- injection E as <- <-. congruence.
        -- destruct (proj2 IH) as [e E]; [eauto | discriminate].
      * split; [intros _ | eauto].
        destruct (proj1 IH) as (a & w & I & N); [eauto|].
        exists a, w. auto.
    + split; [intros _; exists alpha, weight; auto | eauto].
Qed.

Lemma apply_updates_app (a b : list string) (params : Dict.t Tensor)
      (pairs : list (Alpha * Solver.Weights Tensor)) :
  apply_updates (a ++ b) params pairs
  = match apply_updates a params pairs with
    | (Return _, params') => apply_updates b params' pairs
    | (Raise e, params') => (Raise e, params')
    end.
Proof.
  revert params. induction a as [|idx rest IH]; intros params; simpl; auto.
  destruct (weighted_terms idx pairs) as [terms|e]; auto.
  destruct (Dict.get params idx); auto.
Qed.

(** The update loop on indices that are parameters and have their
    terms. *)
Lemma apply_updates_ok (idxs : list string) (params : Dict.t Tensor)
      (pairs : list (Alpha * Solver.Weights Tensor)) :
  NoDup idxs ->
  (forall idx, In idx idxs -> In idx (Dict.keys params)) ->
  (forall idx, In idx idxs -> exists terms, weighted_terms idx pairs = Return terms) ->
  exists params',
    apply_updates idxs params pairs = (Return tt, params')
    /\ Dict.keys params' = Dict.keys params
    /\ (forall idx, ~ In idx idxs -> Dict.get params' idx = Dict.get params idx)
    /\ (forall idx data terms,
          In idx idxs -> Dict.get params idx = Some data ->
          weighted_terms idx pairs = Return terms ->
          Dict.get params' idx
          = Some (tensor_add data (Solver.py_sum tensor_add tensor_zero terms))).
Proof.
  revert params. induction idxs as [|i rest IH]; intros params ND K W; simpl.
  - exists params. repeat split; auto. intros idx data terms [].
  - inversion ND as [|? ? NI ND']; subst.
    destruct (W i (or_introl eq_refl)) as [terms Wi]. rewrite Wi.
    destruct (in_keys_get_some _ _ _ (K i (or_introl eq_refl))) as [data G].
    rewrite G.
    set (params1 := Dict.set params i
                      (tensor_add data
                         (Solver.py_sum tensor_add tensor_zero terms))).
    assert (Dict.keys params1 = Dict.keys params) as K1
      by (eapply keys_set_present; eauto).
    destruct (IH params1 ND') as (params' & A & B & C & D).
    { intros idx I. rewrite K1. apply K. now right. }
    { intros idx I. apply W. now right. }
    exists params'. split; [exact A|]. split; [congruence|]. split.
    + intros idx N. rewrite C by (simpl in N; tauto).
      apply get_set_other. simpl in N. intuition congruence.
    + intros idx data' terms' [<-|I] G' W'.
      * rewrite C by exact NI. unfold params1. rewrite get_set_same.
        congruence.
      * apply D; auto. unfold params1. rewrite get_set_other; auto.
        intros <-. contradiction.
Qed.

(** X18.  When every contribution has a delta for every parameter, the update
    loop returns, keeps the parameters in their order, and adds to each
    parameter the sum of its weighted deltas. *)
Theorem apply_updates_adds_the_weighted_sums
        (params : Dict.t Tensor) (pairs : list (Alpha * Solver.Weights Tensor)) :
  NoDup (Dict.keys params) ->
  (forall idx alpha weight,
     In idx (Dict.keys params) -> In (alpha, weight) pairs ->
     Dict.get weight idx <> None) ->
  exists params',
    apply_updates (Dict.keys params) params pairs = (Return tt, params')
    /\ Dict.keys params' = Dict.keys params
    /\ forall idx data,
         Dict.get params idx = Some data ->
         exists terms,
           weighted_terms idx pairs = Return terms
           /\ List.length terms = List.length pairs
           /\ Dict.get params' idx
              = Some (tensor_add data
                        (Solver.py_sum tensor_add tensor_zero terms)).
Proof.
  intros ND Full.
  assert (forall idx, In idx (Dict.keys params) ->
                      exists terms, weighted_terms idx pairs = Return terms) as W.
  { intros idx I.
    destruct (weighted_terms idx pairs) as [terms|e] eqn:E; [eauto|].
    exfalso.
    destruct (proj1 (weighted_terms_missing idx pairs)) as (a & w & I' & N);
      [eauto|].
    eapply Full; eauto. }
  destruct (apply_updates_ok (Dict.keys params) params pairs ND) as
    (params' & A & B & _ & D); auto.
  exists params'. repeat split; auto.
  intros idx data G.
  destruct (W idx (get_some_in_keys _ _ _ _ G)) as [terms Wt].
  exists terms. repeat split; auto.
  - clear - Wt. revert terms Wt.
    induction pairs as [|[a w] rest IH]; simpl; intros terms.
    + now intros [= <-].
    + destruct (Dict.get w idx); [|discriminate].
      destruct (weighted_terms idx rest) as [ts|e]; [|discriminate].
      intros [= <-]. simpl. f_equal. now apply IH.
  - eapply D; eauto. eapply get_some_in_keys; eauto.
Qed.

(** X19.  The update loop is not all or nothing: when a contribution has no
    delta for the parameter [idx], the loop stops there with [KeyError],
    and the parameters before [idx] keep the sums already added to
    them. *)
Theorem apply_updates_stops_at_a_missing_delta
        (before after : list string) (idx : string) (params : Dict.t Tensor)
        (pairs : list (Alpha * Solver.Weights Tensor))
        (alpha : Alpha) (weight : Solver.Weights Tensor) :
  Dict.keys params = before ++ idx :: after ->
  NoDup (Dict.keys params) ->
  (forall i a w, In i before -> In (a, w) pairs -> Dict.get w i <> None) ->
  In (alpha, weight) pairs ->
  Dict.get weight idx = None ->
  exists params',
    apply_updates before params pairs = (Return tt, params')
    /\ apply_updates (Dict.keys params) params pairs = (Raise KeyError, params')
    /\ (forall i, ~ In i before -> Dict.get params' i = Dict.get params i).
Proof.
  intros K ND Full I N.
  assert (NoDup before) as NDb.
  { rewrite K in ND. now apply NoDup_app_remove_r in ND. }
  destruct (apply_updates_ok before params pairs NDb) as (params' & A & _ & C & _).
  - intros i Ib. rewrite K. apply in_or_app. now left.
  - intros i Ib.
    destruct (weighted_terms i pairs) as [terms|e] eqn:E; [eauto|].
    exfalso.
    destruct (proj1 (weighted_terms_missing i pairs)) as (a & w & I' & N');
      [eauto|].
    eapply Full; eauto.
  - exists params'. repeat split; auto.
    rewrite K, apply_updates_app, A. simpl.
    destruct (weighted_terms idx pairs) as [terms|e] eqn:E.
    + exfalso.
      destruct (proj2 (weighted_terms_missing idx pairs)) as [e E'];
        [eauto | congruence].
    + f_equal. f_equal. eapply weighted_terms_raise; eauto.
Qed.

End UpdateLoopFacts.

Section AggregationMore.

Variables Tensor Alpha : Type.
Variable tensor_scale : Alpha -> Tensor -> Tensor.
Variable tensor_add : Tensor -> Tensor -> Tensor.
Variable tensor_zero : Tensor.
Variables Metadata FairnessState Flattened : Type.
Variable metadata_keys : Metadata -> list string.
Variable flatten_metadata :
  FairnessState -> list Metadata -> list string -> Flattened.
Variable get_alphas : FairnessState -> Flattened -> list Alpha.
Variable update_internal_state_after_aggregation :
  FairnessState -> list Alpha -> Flattened -> list string -> FairnessState.
Variable ModelUpdate : Type.
Variable empty_model_and_metadata_from :
  string -> PendingWork.t ModelUpdate ->
  result (Solver.Drained Tensor Metadata) * PendingWork.t ModelUpdate.

Abbreviation solver := (Solver.t Tensor Metadata FairnessState ModelUpdate).
Abbreviation collect :=
  (Solver.collect metadata_keys empty_model_and_metadata_from).
Abbreviation aggregate :=
  (Solver.aggregate_received_updates
     tensor_scale tensor_add tensor_zero metadata_keys flatten_metadata
     get_alphas update_internal_state_after_aggregation
     empty_model_and_metadata_from).

(** X20.  A round never writes the loss window, and once the contributions
    are collected the node's own contribution is gone, also from a round
    that then fails its sanity check or its update loop. *)
Theorem round_consumes_own_contribution (s : solver) :
  Solver.ten_recent_loss_list (snd (aggregate s))
  = Solver.ten_recent_loss_list s
  /\ forall acc s1,
       collect s = (Return acc, s1) ->
       Solver.minibatch_updates (snd (aggregate s)) = None
       /\ Solver.update_metadata (snd (aggregate s)) = None.
Proof.
  unfold Solver.aggregate_received_updates.
  assert (Solver.ten_recent_loss_list (snd (collect s))
          = Solver.ten_recent_loss_list s
          /\ forall acc s1, collect s = (Return acc, s1) ->
               Solver.minibatch_updates s1 = None
               /\ Solver.update_metadata s1 = None) as [W O].
  { unfold Solver.collect.
    destruct (Solver.drain_hosts empty_model_and_metadata_from
                (PendingWork.other_hosts (Solver.pending_work_queues s))
                (Solver.pending_work_queues s) ([], [], []))
      as [[acc|e] pw]; simpl.
    - destruct (Solver.add_own metadata_keys _ acc) as [[[wl ml] ids]|e];
        simpl; split; auto; intros acc' s1; intros [= <- <-]; auto.
    - split; auto. intros acc' s1; discriminate. }
  destruct (collect s) as [[[[wl ml] ids]|e] s1] eqn:C; simpl in W.
  - specialize (O _ _ eq_refl).
    destruct (Solver.counts_differ _ wl ml).
    + simpl. split; [exact W | intros; exact O].
    + destruct (Solver.apply_updates tensor_scale tensor_add tensor_zero
                  (Dict.keys (Solver.parameter_pointers s1))
                  (Solver.parameter_pointers s1) _) as [r params].
      simpl. split; [exact W | intros; exact O].
  - simpl. split; [exact W | intros; discriminate].
Qed.

Lemma drain_hosts_same_lengths (hosts : list string)
      (pw pw' : PendingWork.t ModelUpdate)
      (acc : Solver.Drained Tensor Metadata)
      (weight_list : list (Solver.Weights Tensor))
      (metadata_list : list Metadata) (host_id_list : list string) :
  (forall host_id pw0 w m ids pw1,
      empty_model_and_metadata_from host_id pw0 = (Return (w, m, ids), pw1) ->
      List.length w = List.length m) ->
  List.length (fst (fst acc)) = List.length (snd (fst acc)) ->
  Solver.drain_hosts empty_model_and_metadata_from hosts pw acc
  = (Return (weight_list, metadata_list, host_id_list), pw') ->
  List.length weight_list = List.length metadata_list.
Proof.
  intros Same. revert pw acc.
  induction hosts as [|host_id rest IH]; intros pw [[wl ml] ids]; simpl.
  - intros L [= <- <- <- <-]. exact L.
  - intros L.
    destruct (empty_model_and_metadata_from host_id pw)
      as [[[[w m] i]|e] pw1] eqn:E.
    + apply IH. simpl. rewrite !length_app.
      rewrite (Same _ _ _ _ _ _ E). lia.
    + destruct e; try discriminate. apply IH. exact L.
Qed.

(** X21.  If what is drained from a host always has as many deltas as
    metadata entries, so have the lists of the round: the sanity check
    can then only fail on the number of alphas. *)
Theorem collected_weights_and_metadata_agree
        (s s1 : solver) (weight_list : list (Solver.Weights Tensor))
        (metadata_list : list Metadata) (host_id_list : list string) :
  (forall host_id pw0 w m ids pw1,
      empty_model_and_metadata_from host_id pw0 = (Return (w, m, ids), pw1) ->
      List.length w = List.length m) ->
  collect s = (Return (weight_list, metadata_list, host_id_list), s1) ->
  List.length weight_list = List.length metadata_list
  /\ (fst (aggregate s) = Raise ValueError <->
      List.length
        (Solver.round_alphas flatten_metadata get_alphas s1 metadata_list
                             host_id_list)
      <> List.length weight_list).
Proof.
  intros Same C.
  assert (List.length weight_list = List.length metadata_list) as L.
  { unfold Solver.collect in C.
    destruct (Solver.drain_hosts empty_model_and_metadata_from
                (PendingWork.other_hosts (Solver.pending_work_queues s))
                (Solver.pending_work_queues s) ([], [], []))
      as [[[[wl ml] ids]|e] pw] eqn:D; [|discriminate].
    pose proof (fun L => drain_hosts_same_lengths _ _ _ _ _ _ _ Same L D)
      as L0.
    specialize (L0 eq_refl).
    unfold Solver.add_own in C. simpl in C.
    destruct (Solver.minibatch_updates s) as [own|].
    - destruct (Solver.update_metadata s) as [meta|]; [|discriminate].
      injection C as <- <- _ _. rewrite !length_app. simpl. lia.
    - injection C as <- <- _ _. exact L0. }
  split; [exact L|].
  unfold Solver.aggregate_received_updates. rewrite C.
  unfold Solver.round_alphas.
  set (alphas := get_alphas (Solver.fairness_state s1)
                   (flatten_metadata (Solver.fairness_state s1)
                                     metadata_list host_id_list)).
  destruct (Solver.counts_differ alphas weight_list metadata_list) eqn:D.
  - simpl. apply (counts_differ_iff _ _ tensor_add tensor_zero) in D. split; auto.
    intros _. destruct D as [D|D]; [exact D | contradiction].
  - assert (~ (List.length alphas <> List.length weight_list
               \/ List.length weight_list <> List.length metadata_list)) as ND.
    { intros X. apply (counts_differ_iff _ _ tensor_add tensor_zero) in X. congruence. }
    destruct (Solver.apply_updates tensor_scale tensor_add tensor_zero
                (Dict.keys (Solver.parameter_pointers s1))
                (Solver.parameter_pointers s1)
                (combine alphas weight_list)) as [r params] eqn:U.
    simpl. split.
    + intros E.
      pose proof (apply_updates_raise _ _ tensor_scale tensor_add tensor_zero
                    (Dict.keys (Solver.parameter_pointers s1))
                    (Solver.parameter_pointers s1)
                    (combine alphas weight_list) ValueError) as X.
      rewrite U in X. specialize (X E). discriminate.
    + intros X. exfalso. apply ND. now left.
Qed.

End AggregationMore.

(** * The simulator of Cluster.py *)

Section ClusterFacts.

Lemma make_clusters_from_spec (k n : nat) (speed m : Z) :
  map Cluster.id (fst (Cluster.make_clusters_from k n speed m))
  = map (fun i => m + 1 + Z.of_nat i) (seq 0 n)
  /\ map Cluster.machine_speed (fst (Cluster.make_clusters_from k n speed m))
     = map (fun i => Z.of_nat (k + i) mod speed) (seq 0 n)
  /\ snd (Cluster.make_clusters_from k n speed m) = m + Z.of_nat n
  /\ Forall (fun c => Cluster.latency_table c = [] /\ Cluster.X c = None)
            (fst (Cluster.make_clusters_from k n speed m)).
Proof.
  revert k m. induction n as [|n IH]; intros k m; simpl.
  - repeat split; auto. lia.
  - destruct (IH (S k) (m + 1)) as (A & B & C & D).
    destruct (Cluster.make_clusters_from (S k) n speed (m + 1))
      as [rest m'].
    simpl in *. rewrite A, B, C, Nat.add_0_r, Z.add_0_r.
    rewrite <- !seq_shift, !map_map.
    repeat split; auto; try lia.
    + f_equal. apply map_ext. intros i. lia.
    + f_equal. apply map_ext. intros i. f_equal. lia.
Qed.

Lemma consecutive_ids_nodup (m : Z) (n : nat) :
  NoDup (map (fun i => m + 1 + Z.of_nat i) (seq 0 n)).
Proof.
  generalize 0%nat. induction n as [|n IH]; intros s; simpl; constructor.
  - rewrite in_map_iff. intros (i & E & I). apply in_seq in I. lia.
  - apply IH.
Qed.

(** X22.  The clusters made in a row get the numbers that follow [MAX_ID],
    one after the other, so no two clusters share an id; cluster [k]
    has speed [k % max_machine_speed]; and [MAX_ID] ends at the last id
    given. *)
Theorem cluster_ids_are_consecutive (n : nat) (speed m : Z) :
  let clusters := fst (Cluster.make_clusters n speed m) in
  map Cluster.get_id clusters = map (fun i => m + 1 + Z.of_nat i) (seq 0 n)
  /\ NoDup (map Cluster.get_id clusters)
  /\ map Cluster.machine_speed clusters
     = map (fun i => Z.of_nat i mod speed) (seq 0 n)
  /\ snd (Cluster.make_clusters n speed m) = m + Z.of_nat n.
Proof.
  intros clusters.
  destruct (make_clusters_from_spec 0 n speed m) as (A & B & C & _).
  change (map Cluster.get_id clusters) with (map Cluster.id clusters).
  unfold clusters, Cluster.make_clusters. rewrite A.
  repeat split; auto. apply consecutive_ids_nodup.
Qed.

Lemma firstn_add (A : Type) (a b : nat) (l : list A) :
  firstn (a + b) l = firstn a l ++ firstn b (skipn a l).
Proof.
  revert l. induction a as [|a IH]; intros l; simpl; auto.
  destruct l as [|x l]; simpl.
  - now rewrite firstn_nil.
  - now rewrite IH.
Qed.

Lemma concat_slices (A : Type) (l : list A) (size n : nat) :
  List.concat (map (fun k => Cluster.slice l (k * size) ((k + 1) * size)) (seq 0 n))
  = firstn (n * size) l.
Proof.
  induction n as [|n IH].
  - reflexivity.
  - rewrite seq_S, map_app, concat_app, IH. simpl.
    rewrite app_nil_r. unfold Cluster.slice.
    replace ((n + 1) * size - n * size)%nat with size by lia.
    replace (size + n * size)%nat with (n * size + size)%nat by lia.
    now rewrite firstn_add.
Qed.

Lemma nth_error_mapi_from (A B : Type) (g : nat * A -> B) (l : list A)
      (s k : nat) :
  nth_error (map g (combine (seq s (List.length l)) l)) k
  = option_map (fun a => g ((s + k)%nat, a)) (nth_error l k).
Proof.
  revert s k. induction l as [|x l IH]; intros s k; simpl.
  - destruct k; reflexivity.
  - destruct k as [|k]; simpl.
    + now rewrite Nat.add_0_r.
    + rewrite IH. simpl. now rewrite Nat.add_succ_r.
Qed.

Lemma nth_error_mapi (A B : Type) (f : nat -> A -> B) (l : list A) (k : nat) :
  nth_error (Cluster.mapi f l) k = option_map (f k) (nth_error l k).
Proof.
  unfold Cluster.mapi. now rewrite nth_error_mapi_from.
Qed.

(** X23.  The data is dealt out in equal shares, in order and without
    overlap: cluster [k] gets rows [k * size] to [(k + 1) * size] with a
    1 in front of each row of [X], the shares put end to end are the
    first [n * size] rows, and the [len(X) % n] rows after them go to no
    cluster. *)
Theorem data_is_dealt_in_equal_shares
        (X y : Cluster.Rows) (clusters : list Cluster.t) :
  (0 < List.length clusters)%nat ->
  let n := List.length clusters in
  let size := (List.length X / n)%nat in
  (forall k c,
      nth_error (Cluster.assign_data X y clusters) k = Some c ->
      Cluster.X c
      = Some (map (cons 1%float)
                  (Cluster.slice X (k * size) ((k + 1) * size)))
      /\ Cluster.y c = Some (Cluster.slice y (k * size) ((k + 1) * size))
      /\ List.length (Cluster.slice X (k * size) ((k + 1) * size)) = size)
  /\ List.concat (map (fun k => Cluster.slice X (k * size) ((k + 1) * size))
                 (seq 0 n))
     = firstn (n * size) X
  /\ (List.length X - n * size = List.length X mod n)%nat.
Proof.
  intros P n size.
  assert (n * size <= List.length X)%nat as Le
    by (unfold size; apply Nat.Div0.mul_div_le).
  split; [|split].
  - intros k c E. unfold Cluster.assign_data in E.
    rewrite nth_error_mapi in E.
    destruct (nth_error clusters k) as [c0|] eqn:N; [|discriminate].
    injection E as <-. simpl. fold n. fold size. repeat split.
    unfold Cluster.slice. rewrite length_firstn, length_skipn.
    assert (k < n)%nat as Lt by (apply nth_error_Some; congruence).
    assert ((k + 1) * size <= n * size)%nat by (apply Nat.mul_le_mono_r; lia).
    lia.
  - apply concat_slices.
  - unfold size. rewrite (Nat.div_mod_eq (List.length X) n) at 1. lia.
Qed.

End ClusterFacts.

Section LatencyFacts.

Lemma int_get_set_same (V : Type) (d : IntDict.t V) (key : Z) (v : V) :
  IntDict.get (IntDict.set d key v) key = Some v.
Proof.
  induction d as [|[k0 v0] rest IH]; simpl.
  - now rewrite Z.eqb_refl.
  - destruct (Z.eqb k0 key) eqn:E; simpl; rewrite E; auto.
Qed.

Lemma int_get_set_other (V : Type) (d : IntDict.t V) (key key' : Z) (v : V) :
  key <> key' -> IntDict.get (IntDict.set d key v) key' = IntDict.get d key'.
Proof.
  intros N. induction d as [|[k0 v0] rest IH]; simpl.
  - destruct (Z.eqb_spec key key'); [contradiction | reflexivity].
  - destruct (Z.eqb_spec k0 key); simpl.
    + subst k0. destruct (Z.eqb_spec key key'); [contradiction | reflexivity].
    + destruct (Z.eqb k0 key'); auto.
Qed.

(** One turn of the inner loop of lines 96-99 for cluster [k]. *)
Abbreviation latency_step k latency :=
  (fun (c : Cluster.t) (jc : nat * Cluster.t) =>
     if Nat.eqb k (fst jc) then c
     else Cluster.set_latency_to
            (snd jc) ((Z.of_nat k + Z.of_nat (fst jc)) mod latency) c).

Lemma latency_fold_keeps (k : nat) (latency : Z)
      (pairs : list (nat * Cluster.t)) (c : Cluster.t) :
  Cluster.id (fold_left (latency_step k latency) pairs c) = Cluster.id c
  /\ Cluster.X (fold_left (latency_step k latency) pairs c) = Cluster.X c
  /\ Cluster.y (fold_left (latency_step k latency) pairs c) = Cluster.y c.
Proof.
  revert c. induction pairs as [|[j cj] rest IH]; intros c; simpl; auto.
  destruct (IH (if Nat.eqb k j then c
                else Cluster.set_latency_to
                       cj ((Z.of_nat k + Z.of_nat j) mod latency) c))
    as (A & B & C).
  rewrite A, B, C. destruct (Nat.eqb k j); auto.
Qed.

Lemma latency_fold_get (k : nat) (latency : Z)
      (pairs : list (nat * Cluster.t)) (c : Cluster.t) (key : Z) :
  NoDup (map (fun jc => Cluster.id (snd jc)) pairs) ->
  IntDict.get
    (Cluster.latency_table (fold_left (latency_step k latency) pairs c)) key
  = match find (fun jc => Z.eqb (Cluster.id (snd jc)) key) pairs with
    | Some jc =>
        if Nat.eqb k (fst jc)
        then IntDict.get (Cluster.latency_table c) key
        else Some ((Z.of_nat k + Z.of_nat (fst jc)) mod latency)
    | None => IntDict.get (Cluster.latency_table c) key
    end.
Proof.
  revert c. induction pairs as [|[j cj] rest IH]; intros c ND; simpl; auto.
  inversion ND as [|? ? NI ND']; subst. rewrite (IH _ ND'). simpl in NI.
  destruct (Z.eqb_spec (Cluster.id cj) key) as [E|N].
  - assert (find (fun jc => Z.eqb (Cluster.id (snd jc)) key) rest = None) as F.
    { destruct (find (fun jc => Z.eqb (Cluster.id (snd jc)) key) rest)
        as [jc|] eqn:F; auto.
      apply find_some in F. destruct F as [I Eq]. apply Z.eqb_eq in Eq.
      exfalso. apply NI. apply in_map_iff. exists jc. split; [congruence|auto]. }
    rewrite F. simpl. destruct (Nat.eqb k j); auto.
    simpl. unfold Cluster.get_id. rewrite E. apply int_get_set_same.
  - assert (IntDict.get
              (Cluster.latency_table
                 (if Nat.eqb k j then c
                  else Cluster.set_latency_to
                         cj ((Z.of_nat k + Z.of_nat j) mod latency) c)) key
            = IntDict.get (Cluster.latency_table c) key) as G.
    { destruct (Nat.eqb k j); auto. simpl.
      apply int_get_set_other. exact N. }
    rewrite G. reflexivity.
Qed.

Lemma find_by_id (clusters : list Cluster.t) (s j : nat) (cj : Cluster.t) :
  NoDup (map Cluster.id clusters) ->
  nth_error clusters j = Some cj ->
  find (fun jc => Z.eqb (Cluster.id (snd jc)) (Cluster.id cj))
       (combine (seq s (List.length clusters)) clusters)
  = Some ((s + j)%nat, cj).
Proof.
  revert s j. induction clusters as [|c rest IH]; intros s j ND N.
  - destruct j; discriminate.
  - inversion ND as [|? ? NI ND']; subst. simpl.
    destruct j as [|j]; simpl in N.
    + injection N as <-. rewrite Z.eqb_refl, Nat.add_0_r. reflexivity.
    + destruct (Z.eqb_spec (Cluster.id c) (Cluster.id cj)) as [E|_].
      * exfalso. apply NI. rewrite E. apply in_map. eapply nth_error_In; eauto.
      * rewrite (IH (S s) j ND' N). f_equal. f_equal. lia.
Qed.

Lemma combine_ids (clusters : list Cluster.t) (s : nat) :
  map (fun jc : nat * Cluster.t => Cluster.id (snd jc))
      (combine (seq s (List.length clusters)) clusters)
  = map Cluster.id clusters.
Proof.
  revert s. induction clusters as [|c rest IH]; intros s; simpl; auto.
  now rewrite IH.
Qed.

(** X24.  After the loops of lines 96-99 over clusters with distinct ids and
    empty tables, cluster [k] has for every other cluster [j] the
    latency [(k + j) % max_server_latency] under the id of [j], and no
    latency to itself; so the latency from [k] to [j] is the latency
    from [j] to [k]. *)
Theorem latencies_are_symmetric_and_never_to_self
        (latency : Z) (clusters : list Cluster.t) (k j : nat)
        (ck cj : Cluster.t) :
  NoDup (map Cluster.get_id clusters) ->
  Forall (fun c => Cluster.latency_table c = []) clusters ->
  nth_error (Cluster.assign_latencies latency clusters) k = Some ck ->
  nth_error (Cluster.assign_latencies latency clusters) j = Some cj ->
  IntDict.get (Cluster.latency_table ck) (Cluster.get_id cj)
  = (if Nat.eqb k j then None
     else Some ((Z.of_nat k + Z.of_nat j) mod latency))
  /\ IntDict.get (Cluster.latency_table ck) (Cluster.get_id cj)
     = IntDict.get (Cluster.latency_table cj) (Cluster.get_id ck).
Proof.
  intros ND Empty Nk Nj.
  change (map Cluster.get_id clusters) with (map Cluster.id clusters) in ND.
  assert (forall a b ca cb,
             nth_error (Cluster.assign_latencies latency clusters) a = Some ca ->
             nth_error (Cluster.assign_latencies latency clusters) b = Some cb ->
             IntDict.get (Cluster.latency_table ca) (Cluster.get_id cb)
             = if Nat.eqb a b then None
               else Some ((Z.of_nat a + Z.of_nat b) mod latency)) as Table.
  { intros a b ca cb Na Nb.
    unfold Cluster.assign_latencies in Na, Nb.
    rewrite nth_error_mapi in Na, Nb.
    destruct (nth_error clusters a) as [ca0|] eqn:Ea; [|discriminate].
    destruct (nth_error clusters b) as [cb0|] eqn:Eb; [|discriminate].
    injection Na as <-. injection Nb as <-.
    unfold Cluster.get_id.
    destruct (latency_fold_keeps b latency
                (combine (seq 0 (List.length clusters)) clusters) cb0)
      as (Ib & _).
    rewrite Ib.
    rewrite latency_fold_get by (rewrite combine_ids; exact ND).
    rewrite (find_by_id clusters 0 b cb0 ND Eb). simpl.
    assert (Cluster.latency_table ca0 = []) as Ec.
    { rewrite Forall_forall in Empty. apply Empty.
      eapply nth_error_In; eauto. }
    rewrite Ec. reflexivity. }
  split; [now apply Table|].
  rewrite (Table k j ck cj Nk Nj), (Table j k cj ck Nj Nk).
  rewrite Nat.eqb_sym. destruct (Nat.eqb j k); auto.
  f_equal. f_equal. lia.
Qed.

End LatencyFacts.

Section DescentFacts.

Variable Theta : Type.
Variable compute_local_theta :
  nat -> Cluster.Rows -> Cluster.Rows -> Theta -> float -> Theta * float.

(** X25.  [go] returns a cost history of 50 entries of which only the last is
    written: the assignment to [cost_history] stands after the loop, so
    the first 49 entries are the zeros the array was created with and
    the last one is the cost of the last turn.  Without a data set
    [len(self.y)] fails. *)
Theorem go_records_only_the_last_cost (theta : Theta) (c : Cluster.t) :
  (forall X y,
      Cluster.X c = Some X -> Cluster.y c = Some y ->
      let last := Cluster.passes Theta compute_local_theta 50
                                 (List.length y) X y theta in
      Cluster.go Theta compute_local_theta theta c
      = Some (fst last, repeat 0%float 49 ++ [snd last]))
  /\ (Cluster.y c = None ->
      Cluster.go Theta compute_local_theta theta c = None).
Proof.
  split.
  - intros X y EX Ey last. unfold Cluster.go. rewrite EX, Ey.
    change Cluster.iterations with 50%nat. fold last.
    destruct last as [theta' cost]. reflexivity.
  - intros E. unfold Cluster.go. rewrite E.
    destruct (Cluster.X c); auto.
Qed.

End DescentFacts.

(** * The further properties at concrete inputs *)

(** A first update of the unknown host ["n9"]. *)
Lemma first_update_witness :
  (PendingWork.frozen (Scenario.fresh 2) = false
   /\ Dict.get (PendingWork.queues (Scenario.fresh 2)) "n9" = None)
  /\ fst (PendingWork.enqueue "u9" "n9" (Scenario.fresh 2)) = Return tt.
Proof.
  split; [split; reflexivity|].
  destruct (first_update_of_a_host_is_never_pushed_back
              string "u9" "n9" (Scenario.fresh 2) (or_introl eq_refl) eq_refl)
    as (H & _).
  exact H.
Defined.

(** A second record for ["n1"], then a dequeue. *)
Lemma fifo_witness :
  Dict.get (PendingWork.queues (Scenario.one_queued 2)) "n1" = Some ["u1"]
  /\ fst (PendingWork.dequeue
            "n1" (snd (PendingWork.enqueue "u2" "n1" (Scenario.one_queued 2))))
     = Return "u1".
Proof.
  split; [reflexivity|].
  destruct (enqueue_then_dequeue_is_fifo
              string "u2" "n1" (Scenario.one_queued 2) ["u1"]
              eq_refl eq_refl eq_refl eq_refl) as (H & _).
  exact H.
Defined.

(** The leader's sixth record while the barrier is up. *)
Lemma pushed_back_leader_witness :
  (PendingWork.frozen Scenario.frozen_crowded = true
   /\ PendingWork.pushes_back Scenario.frozen_crowded
                              ["u1"; "u2"; "u3"; "u4"; "u5"] = true)
  /\ PendingWork.enqueue "u6" "n0" Scenario.frozen_crowded
     = (Raise DevicePushbackError,
        PendingWork.set_frozen false Scenario.frozen_crowded).
Proof.
  split; [split; reflexivity|].
  exact (pushed_back_leader_update_still_lifts_the_barrier
           string "u6" Scenario.frozen_crowded ["u1"; "u2"; "u3"; "u4"; "u5"]
           eq_refl eq_refl eq_refl).
Defined.

(** The cached minimum after one enqueue. *)
Lemma cached_minimum_witness :
  PendingWork.reachable 2 Scenario.node0 "n0" ["n1"; "n2"] "n0"
                        (Scenario.one_queued 2)
  /\ (PendingWork.min_queue_len (Scenario.one_queued 2) = None
      \/ PendingWork.min_queue_len (Scenario.one_queued 2)
         = PendingWork.least_key_len
             (Dict.keys (PendingWork.queues (Scenario.one_queued 2)))).
Proof.
  assert (PendingWork.reachable 2 Scenario.node0 "n0" ["n1"; "n2"] "n0"
                                (Scenario.one_queued 2)) as R.
  { apply PendingWork.reach_call; [apply PendingWork.reach_setup | exact I]. }
  split; [exact R|].
  apply (cached_minimum_is_the_shortest_host_name
           string 2 Scenario.node0 "n0" ["n1"; "n2"] "n0"
           (Scenario.one_queued 2) R).
  vm_compute. intuition discriminate.
Defined.

(** The only draw with one record queued. *)
Lemma dequeue_random_reachable_witness :
  PendingWork.valid_draw (Scenario.one_queued 2) 0
  /\ exists u s',
       PendingWork.dequeue_random 0 (Scenario.one_queued 2) = (Return u, s').
Proof.
  assert (PendingWork.reachable 2 Scenario.node0 "n0" ["n1"; "n2"] "n0"
                                (Scenario.one_queued 2)) as R.
  { apply PendingWork.reach_call; [apply PendingWork.reach_setup | exact I]. }
  assert (PendingWork.valid_draw (Scenario.one_queued 2) 0) as D
    by (vm_compute; split; discriminate).
  split; [exact D|].
  destruct (dequeue_random_never_fails_internally
              string 2 Scenario.node0 "n0" ["n1"; "n2"] "n0"
              (Scenario.one_queued 2) 0 R D) as [[Z0 _]|[_ (u & s' & E & _)]].
  - vm_compute in Z0. discriminate.
  - eauto.
Defined.

(** An update of ["n1"] while the barrier is up. *)
Lemma dropped_update_witness :
  PendingWork.frozen (PendingWork.clear_all (Scenario.one_queued 2)) = true
  /\ Main.receive_update Scenario.decode (Main.mkUpdateRequest "n1" "u9")
                         (PendingWork.clear_all (Scenario.one_queued 2))
     = (Return Main.update_response,
        PendingWork.clear_all (Scenario.one_queued 2)).
Proof.
  split; [reflexivity|].
  destruct (dropped_update_is_answered_like_a_queued_one
              string Scenario.decode (Main.mkUpdateRequest "n1" "u9")
              (PendingWork.clear_all (Scenario.one_queued 2)) "u9"
              eq_refl eq_refl) as (H & _).
  - vm_compute. discriminate.
  - exact H.
Defined.

(** The first command line of the comment of [main.py]. *)
Lemma parse_args_witness :
  Main.parse_args ["main.py"; "-me"; "localhost:5000"; "-leader";
                   "localhost:5000"; "-them"; "localhost:5001";
                   "-otherleaders"; "localhost:5002"]
  = Main.Started (Main.mkConfig "localhost:5000" "localhost:5000"
                                ["localhost:5001"] ["localhost:5002"] "5000").
Proof.
  destruct (parse_args_reads_hosts_and_leaders
              "main.py" "localhost" "5000" "localhost:5000" ["localhost:5001"])
    as (_ & H).
  - unfold Main.no_colon. simpl. intuition discriminate.
  - unfold Main.no_colon. simpl. intuition discriminate.
  - simpl. intuition discriminate.
  - exact (H ["localhost:5002"]).
Defined.

(** A command line that stops after [-leader]. *)
Lemma parse_args_short_witness :
  Main.parse_args ["main.py"; "-me"; "localhost:5000"; "-leader"]
  = Main.Crashed IndexError.
Proof.
  apply (parse_args_short_command_line_crashes
           ["main.py"; "-me"; "localhost:5000"; "-leader"]).
  - simpl. lia.
  - reflexivity.
  - reflexivity.
Defined.

(** A command line without arguments. *)
Lemma parse_args_usage_witness :
  Main.parse_args ["main.py"] = Main.Usage.
Proof.
  apply (parse_args_usage ["main.py"]). left. simpl. lia.
Defined.

(** A host name without a port. *)
Lemma parse_args_port_witness :
  Main.parse_args ["main.py"; "-me"; "localhost"; "-leader"; "localhost";
                   "-them"; "other"]
  = Main.Crashed IndexError.
Proof.
  apply (parse_args_needs_a_port "main.py" "localhost" "localhost" ["other"]).
  unfold Main.no_colon. simpl. intuition discriminate.
Defined.

(** A first loss that is not a number. *)
Lemma nan_loss_witness :
  PrimFloat.is_nan (Solver.loss_back [PrimFloat.nan] 0) = true
  /\ Solver.convergent
       (Solver.record_losses [PrimFloat.nan] Solver.initial_loss_list)
     = Return false.
Proof.
  split; [reflexivity|].
  apply (nan_loss_is_never_convergence [PrimFloat.nan]).
  left. reflexivity.
Defined.

(** One parameter and one contribution with weight 2. *)
Lemma apply_updates_witness :
  exists params',
    Solver.apply_updates Z.mul Z.add 0 ["0"] [("0", 10)] [(2, [("0", 1)])]
    = (Return tt, params')
    /\ Dict.get params' "0" = Some (10 + (0 + 2 * 1)).
Proof.
  destruct (apply_updates_adds_the_weighted_sums
              Z Z Z.mul Z.add 0 [("0", 10)] [(2, [("0", 1)])])
    as (params' & A & _ & D).
  - simpl. constructor; [simpl; tauto | constructor].
  - simpl. intros idx alpha weight [<-|[]] [[= <- <-]|[]]. discriminate.
  - exists params'. split; [exact A|].
    destruct (D "0" 10 eq_refl) as (terms & W & _ & G).
    injection W as <-. exact G.
Defined.

(** Two parameters and a contribution that has only the first. *)
Lemma missing_delta_witness :
  exists params',
    Solver.apply_updates Z.mul Z.add 0 ["0"; "1"] [("0", 10); ("1", 20)]
                         [(2, [("0", 1)])]
    = (Raise KeyError, params')
    /\ Dict.get params' "1" = Some 20.
Proof.
  destruct (apply_updates_stops_at_a_missing_delta
              Z Z Z.mul Z.add 0 ["0"] [] "1" [("0", 10); ("1", 20)]
              [(2, [("0", 1)])] 2 [("0", 1)])
    as (params' & _ & B & C).
  - reflexivity.
  - simpl. repeat constructor; simpl; intuition discriminate.
  - simpl. intros i a w [<-|[]] [[= <- <-]|[]]. discriminate.
  - simpl. auto.
  - reflexivity.
  - exists params'. split; [exact B|].
    rewrite C; [reflexivity|]. simpl. intuition discriminate.
Defined.

(** A round that drains the contribution of ["n1"], finds nothing for
    ["n2"] and adds its own: two deltas and two metadata entries, and
    three alphas for the three hosts named, so the round raises
    [ValueError]. *)
Lemma collected_from_a_peer_witness :
  fst (Solver.collect Dict.keys Scenario.drain_oldest
                      Scenario.solver_with_peer)
  = Return ([[("0", 2)]; [("0", 1)]],
            [[("n1", 3)]; [("n0", 5); ("n2", 1)]],
            ["n1"; "n0"; "n2"])
  /\ List.length [[("0", 2)]; [("0", 1)]]
     = List.length [[("n1", 3)]; [("n0", 5); ("n2", 1)]]
  /\ fst (Solver.aggregate_received_updates
            Z.mul Z.add 0 Dict.keys Scenario.flatten_metadata
            Scenario.get_alphas
            Scenario.update_internal_state_after_aggregation
            Scenario.drain_oldest Scenario.solver_with_peer)
     = Raise ValueError.
Proof.
  assert (Solver.collect Dict.keys Scenario.drain_oldest
                         Scenario.solver_with_peer
          = (Return ([[("0", 2)]; [("0", 1)]],
                     [[("n1", 3)]; [("n0", 5); ("n2", 1)]],
                     ["n1"; "n0"; "n2"]),
             snd (Solver.collect Dict.keys Scenario.drain_oldest
                                 Scenario.solver_with_peer))) as C
    by (vm_compute; reflexivity).
  destruct (collected_weights_and_metadata_agree
              Z Z Z.mul Z.add 0 (Dict.t Z) (Dict.t Z) (list Z) Dict.keys
              Scenario.flatten_metadata Scenario.get_alphas
              Scenario.update_internal_state_after_aggregation
              Scenario.PeerUpdate Scenario.drain_oldest
              Scenario.solver_with_peer
              (snd (Solver.collect Dict.keys Scenario.drain_oldest
                                   Scenario.solver_with_peer))
              [[("0", 2)]; [("0", 1)]]
              [[("n1", 3)]; [("n0", 5); ("n2", 1)]] ["n1"; "n0"; "n2"])
    as (L & V).
  - intros host_id pw0 w m ids pw1. unfold Scenario.drain_oldest.
    destruct (PendingWork.dequeue host_id pw0) as [[[updates meta]|e] pw2].
    + intros [= <- <- _ _]. reflexivity.
    + discriminate.
  - exact C.
  - split; [now rewrite C | split; [exact L|]].
    apply V. vm_compute. discriminate.
Defined.

(** Five rows dealt to three clusters: one row each, two rows left. *)
Lemma equal_shares_witness :
  (0 < List.length Scenario.three_clusters)%nat
  /\ (List.length [[1%float]; [2%float]; [3%float]; [4%float]; [5%float]]
      - List.length Scenario.three_clusters * (5 / 3)
      = 5 mod 3)%nat.
Proof.
  assert (0 < List.length Scenario.three_clusters)%nat as P
    by (vm_compute; lia).
  split; [exact P|].
  destruct (data_is_dealt_in_equal_shares
              [[1%float]; [2%float]; [3%float]; [4%float]; [5%float]]
              [[1%float]; [2%float]; [3%float]; [4%float]; [5%float]]
              Scenario.three_clusters P) as (_ & _ & H).
  exact H.
Defined.

(** The latency from the first to the second of three clusters. *)
Lemma latency_witness :
  exists ck cj,
    nth_error (Cluster.assign_latencies 5 Scenario.three_clusters) 0 = Some ck
    /\ nth_error (Cluster.assign_latencies 5 Scenario.three_clusters) 1
       = Some cj
    /\ IntDict.get (Cluster.latency_table ck) (Cluster.get_id cj) = Some 1.
Proof.
  assert (NoDup (map Cluster.get_id Scenario.three_clusters)) as ND.
  { vm_compute. repeat constructor; simpl; intuition discriminate. }
  assert (Forall (fun c => Cluster.latency_table c = [])
                 Scenario.three_clusters) as Em.
  { vm_compute. repeat constructor. }
  destruct (nth_error (Cluster.assign_latencies 5 Scenario.three_clusters) 0)
    as [ck|] eqn:E0; [|vm_compute in E0; discriminate].
  destruct (nth_error (Cluster.assign_latencies 5 Scenario.three_clusters) 1)
    as [cj|] eqn:E1; [|vm_compute in E1; discriminate].
  exists ck, cj. repeat split.
  destruct (latencies_are_symmetric_and_never_to_self
              5 Scenario.three_clusters 0 1 ck cj ND Em E0 E1) as [H _].
  exact H.
Defined.
